(** * Soy sanitizers (python/sanitize.py): a shallow embedding

    Python strings are modelled by [string]; a character is one of the 256
    code points U+0000..U+00FF (Rocq's [ascii]), the upper half read as
    Latin-1.  Exceptions are modelled by the [result] type. *)

From Stdlib Require Import String Ascii List Bool Arith Lia.
From Stdlib Require Import Decimal DecimalString DecimalNat.
Import ListNotations.
Open Scope list_scope.
Open Scope string_scope.

(** ** Exceptions *)

Inductive exn : Type :=
| TypeError (msg : string)
| IndexError.

Inductive result (A : Type) : Type :=
| Ok (a : A)
| Raise (e : exn).
Arguments Ok {A} a.
Arguments Raise {A} e.

Definition bind {A B : Type} (r : result A) (k : A -> result B) : result B :=
  match r with
  | Ok a => k a
  | Raise e => Raise e
  end.

Notation "x <- r ;; k" := (bind r (fun x => k))
  (at level 61, r at next level, right associativity).

(** ** Sanitized classes *)

(** [class CONTENT_KIND]: the eight kinds, numbered [range(1, 9)]. *)
Inductive CONTENT_KIND : Type :=
| HTML | JS | JS_STR_CHARS | URI | TRUSTED_RESOURCE_URI | ATTRIBUTES | CSS
| TEXT.

Definition kind_value (k : CONTENT_KIND) : nat :=
  match k with
  | HTML => 1 | JS => 2 | JS_STR_CHARS => 3 | URI => 4
  | TRUSTED_RESOURCE_URI => 5 | ATTRIBUTES => 6 | CSS => 7 | TEXT => 8
  end.

Definition kind_eqb (a b : CONTENT_KIND) : bool :=
  Nat.eqb (kind_value a) (kind_value b).

(** [class DIR]: [LTR, NEUTRAL, RTL = (1, 0, -1)]. *)
Inductive DIR : Type := LTR | NEUTRAL | RTL.

(** The classes of the module: the base class and its seven children. *)
Inductive sanitized_class : Type :=
| SanitizedContent
| SanitizedCss
| SanitizedHtml
| SanitizedHtmlAttribute
| SanitizedJs
| SanitizedJsStrChars
| SanitizedUri
| SanitizedTrustedResourceUri.

(** The class attribute [content_kind]; [None] on the base class. *)
Definition content_kind (cls : sanitized_class) : option CONTENT_KIND :=
  match cls with
  | SanitizedContent => None
  | SanitizedCss => Some CSS
  | SanitizedHtml => Some HTML
  | SanitizedHtmlAttribute => Some ATTRIBUTES
  | SanitizedJs => Some JS
  | SanitizedJsStrChars => Some JS_STR_CHARS
  | SanitizedUri => Some URI
  | SanitizedTrustedResourceUri => Some TRUSTED_RESOURCE_URI
  end.

Definition is_SanitizedContent (cls : sanitized_class) : bool :=
  match cls with
  | SanitizedContent => true
  | _ => false
  end.

(** An instance of [IActuallyUnderstandSoyTypeSafetyAndHaveSecurityApproval]:
    its [justification] attribute is [None] unless one was set. *)
Record IActuallyUnderstandSoyTypeSafetyAndHaveSecurityApproval : Type :=
  { justification : option string }.

(** [__init__(self, justification=None)]: a falsy argument (absent or the
    empty string) leaves the class attribute [None] in place. *)
Definition new_approval (j : option string)
  : IActuallyUnderstandSoyTypeSafetyAndHaveSecurityApproval :=
  match j with
  | Some (String c s) => {| justification := Some (String c s) |}
  | _ => {| justification := None |}
  end.

(** An instance of a sanitized class.  The content is a string here. *)
Record instance : Type :=
  { cls : sanitized_class;
    content : string;
    content_dir : option DIR }.

(** [SanitizedContent.__new__(cls, ...)]. *)
Definition SanitizedContent_new (c : sanitized_class) : result unit :=
  if is_SanitizedContent c
     || match content_kind c with None => true | Some _ => false end
  then Raise (TypeError
    "SanitizedContent cannot be instantiated directly. Instantiate a child class with a valid content_kind.")
  else Ok tt.

(** [SanitizedContent.__init__(self, content, content_dir, approval)].
    [approval] is [None] for any value that is not an instance of the
    approval class. *)
Definition SanitizedContent_init (c : sanitized_class) (content0 : string)
    (dir : option DIR)
    (approval : option IActuallyUnderstandSoyTypeSafetyAndHaveSecurityApproval)
  : result instance :=
  match approval with
  | None => Raise (TypeError "Caller does not have sanitization approval.")
  | Some a =>
      match justification a with
      | None | Some "" =>
          Raise (TypeError
            "A justification of at least 20 characters must beprovided with the approval.")
      | Some j =>
          if Nat.ltb (String.length j) 20
          then Raise (TypeError
            "A justification of at least 20 characters must beprovided with the approval.")
          else Ok {| cls := c; content := content0; content_dir := dir |}
      end
  end.

(** The [__init__] of the class: five children take [(content, approval)]
    and pass [DIR.LTR] to the base; the others inherit the base's. *)
Definition class_init (c : sanitized_class) (content0 : string)
    (dir : option DIR)
    (approval : option IActuallyUnderstandSoyTypeSafetyAndHaveSecurityApproval)
  : result instance :=
  match c with
  | SanitizedCss | SanitizedHtmlAttribute | SanitizedJs | SanitizedUri
  | SanitizedTrustedResourceUri =>
      SanitizedContent_init c content0 (Some LTR) approval
  | SanitizedContent | SanitizedHtml | SanitizedJsStrChars =>
      SanitizedContent_init c content0 dir approval
  end.

(** The call [cls(content, content_dir, approval=approval)]. *)
Definition construct (c : sanitized_class) (content0 : string)
    (dir : option DIR)
    (approval : option IActuallyUnderstandSoyTypeSafetyAndHaveSecurityApproval)
  : result instance :=
  _ <- SanitizedContent_new c ;;
  class_init c content0 dir approval.

(** The direction an instance of the class ends up with. *)
Definition dir_of_class (c : sanitized_class) (dir : option DIR) : option DIR :=
  match c with
  | SanitizedCss | SanitizedHtmlAttribute | SanitizedJs | SanitizedUri
  | SanitizedTrustedResourceUri => Some LTR
  | _ => dir
  end.

(** The justification is missing or shorter than 20 characters. *)
Definition insufficient
    (a : IActuallyUnderstandSoyTypeSafetyAndHaveSecurityApproval) : Prop :=
  match justification a with
  | None => True
  | Some j => String.length j < 20
  end.

(** ** Python values *)

(** The values the public functions receive: [None], a string, an instance
    of a sanitized class, or any other object, known by its [str()]. *)
Inductive pyvalue : Type :=
| PyNone
| PyStr (s : string)
| PySanitized (v : instance)
| PyOther (str_form : string).

(** [str(value)]; [SanitizedContent.__str__] returns the content. *)
Definition str (value : pyvalue) : string :=
  match value with
  | PyNone => "None"
  | PyStr s => s
  | PySanitized v => content v
  | PyOther s => s
  end.

(** [isinstance(value, SanitizedHtml)]. *)
Definition isinstance_SanitizedHtml (value : pyvalue) : bool :=
  match value with
  | PySanitized v =>
      match cls v with SanitizedHtml => true | _ => false end
  | _ => false
  end.

Definition get_content_dir (value : pyvalue) : option DIR :=
  match value with
  | PySanitized v => content_dir v
  | _ => None
  end.

Definition is_content_kind (value : pyvalue) (kind : CONTENT_KIND) : bool :=
  match value with
  | PySanitized v =>
      match content_kind (cls v) with
      | Some k => kind_eqb k kind
      | None => false
      end
  | _ => false
  end.

Definition _get_content_of_kind (value : pyvalue) (kind : CONTENT_KIND)
  : option string :=
  if is_content_kind value kind
  then match value with PySanitized v => Some (content v) | _ => None end
  else None.

(** ** Characters and strings *)

Definition code (c : ascii) : nat := nat_of_ascii c.

Definition in_range (lo hi : nat) (c : ascii) : bool :=
  Nat.leb lo (code c) && Nat.leb (code c) hi.

(** [[a-zA-Z]]. *)
Definition is_alpha (c : ascii) : bool :=
  in_range 65 90 c || in_range 97 122 c.

(** [\d], on the first 256 code points: there the decimal digits of
    Unicode are [0] to [9].  In a [str] pattern [\d] accepts every decimal
    digit of Unicode; the others lie above U+00FF and are not characters
    of [string]. *)
Definition is_digit (c : ascii) : bool := in_range 48 57 c.

(** [\w] of a Unicode pattern, on the first 256 code points: the ASCII
    letters and digits, the underscore, and the Latin-1 letters and
    numerals. *)
Definition is_word (c : ascii) : bool :=
  is_alpha c || is_digit c || Nat.eqb (code c) 95
  || Nat.eqb (code c) 170 || in_range 178 179 c || Nat.eqb (code c) 181
  || in_range 185 186 c || in_range 188 190 c || in_range 192 214 c
  || in_range 216 246 c || in_range 248 255 c.

(** [str.lower()] on one character. *)
Definition lower_char (c : ascii) : ascii :=
  if in_range 65 90 c || in_range 192 214 c || in_range 216 222 c
  then ascii_of_nat (code c + 32)
  else c.

Fixpoint lower (s : string) : string :=
  match s with
  | "" => ""
  | String c s' => String (lower_char c) (lower s')
  end.

(** [s[1:]]. *)
Definition tail (s : string) : string :=
  match s with
  | "" => ""
  | String _ s' => s'
  end.

(** [''.join(l)]. *)
Fixpoint join (l : list string) : string :=
  match l with
  | [] => ""
  | s :: l' => s ++ join l'
  end.

(** The longest prefix of characters in the class [p], and what follows. *)
Fixpoint span (p : ascii -> bool) (s : string) : string * string :=
  match s with
  | "" => ("", "")
  | String c s' =>
      if p c
      then let (a, b) := span p s' in (String c a, b)
      else ("", s)
  end.

(** [s.startswith(p)], returning the remainder. *)
Fixpoint strip_prefix (p s : string) : option string :=
  match p with
  | "" => Some s
  | String c p' =>
      match s with
      | "" => None
      | String d s' => if Ascii.eqb c d then strip_prefix p' s' else None
      end
  end.

(** [x in l] for a list of strings. *)
Definition mem (x : string) (l : list string) : bool :=
  existsb (String.eqb x) l.

(** ** Regular expression substitution

    [pattern.sub(repl, s)] for a pattern that never matches the empty
    string: the matches are the leftmost ones, left to right, without
    overlap.  [matcher s] tries the pattern at the start of [s] and gives
    the match with its length; [handler] is the replacement function, which
    may update a state (the list the handler of [_strip_html_tags] appends
    to).  [skip] counts the characters of the current match that are still
    to be passed over. *)

Section ReSub.
Variables M St : Type.
Variable matcher : string -> option (M * nat).
Variable handler : St -> M -> string * St.

Fixpoint re_sub (skip : nat) (st : St) (s : string) : string * St :=
  match s with
  | "" => ("", st)
  | String c s' =>
      match skip with
      | S k => re_sub k st s'
      | O =>
          match matcher s with
          | Some (m, len) =>
              let (r, st1) := handler st m in
              let (out, st2) := re_sub (pred len) st1 s' in
              (r ++ out, st2)
          | None =>
              let (out, st1) := re_sub 0 st s' in
              (String c out, st1)
          end
      end
  end.
End ReSub.
Arguments re_sub {M St} matcher handler skip st s.

(** ** Constants *)

(** The tail of the tag patterns, from the start of the attributes: any
    number of characters other than [>] and the two quotes, or quoted
    strings in double or single quotes, then [>].  The result is the text
    before the closing [>], if there is one outside quotes and every quote
    opened is closed.  No choice of the
    regular expression engine can end the attributes elsewhere: [>] is not
    matched outside quotes and a quote starts nothing but a quoted string. *)
Inductive quote_state : Type :=
| Unquoted
| Quoted (q : ascii).

Definition dquote : ascii := ascii_of_nat 34.

Definition is_quote (c : ascii) : bool :=
  Ascii.eqb c dquote || Ascii.eqb c "'".

Fixpoint attrs_scan (st : quote_state) (s : string) : option string :=
  match s with
  | "" => None
  | String c s' =>
      match st with
      | Unquoted =>
          if Ascii.eqb c ">" then Some ""
          else option_map (String c)
                 (attrs_scan (if is_quote c then Quoted c else Unquoted) s')
      | Quoted q =>
          option_map (String c)
            (attrs_scan (if Ascii.eqb c q then Unquoted else Quoted q) s')
      end
  end.

(** [_HTML5_VOID_ELEMENTS_RE]. *)
Definition HTML5_VOID_ELEMENTS : list string :=
  ["area"; "base"; "br"; "col"; "command"; "embed"; "hr"; "img"; "input";
   "keygen"; "link"; "meta"; "param"; "source"; "track"; "wbr"].

(** [\b] after a word character: the end of the string or a character
    that is not a word character. *)
Definition word_boundary_after (rest : string) : bool :=
  match rest with
  | "" => true
  | String c _ => negb (is_word c)
  end.

(** [_HTML5_VOID_ELEMENTS_RE.match(tag)]: [<], one of the names, [\b]. *)
Definition _HTML5_VOID_ELEMENTS_RE_match (tag : string) : bool :=
  match tag with
  | String "<" r =>
      existsb (fun name =>
                 match strip_prefix name r with
                 | Some rest => word_boundary_after rest
                 | None => false
                 end) HTML5_VOID_ELEMENTS
  | _ => false
  end.

(** A match of [_HTML_TAG_REGEX]: the whole match and the name group. *)
Record tag_match : Type :=
  { group0 : string;
    group1 : option string }.

(** [[a-zA-Z0-9:\-]]. *)
Definition is_name_char (c : ascii) : bool :=
  is_alpha c || is_digit c || Ascii.eqb c ":" || Ascii.eqb c "-".

(** The name alternative of the tag pattern after [<] and the optional
    slash: a letter, the longest run of name characters (a shorter one would
    leave a name character where only [>] can end the match), the
    attributes and [>]. *)
Definition named_tag_match (slash r1 : string) : option (tag_match * nat) :=
  match r1 with
  | String c _ =>
      if is_alpha c then
        let (name, r2) := span is_name_char r1 in
        match attrs_scan Unquoted r2 with
        | Some attrs =>
            let g0 := "<" ++ slash ++ name ++ attrs ++ ">" in
            Some ({| group0 := g0; group1 := Some name |}, String.length g0)
        | None => None
        end
      else None
  | "" => None
  end.

(** Modelled from the spec: [generated_sanitize._HTML_TAG_REGEX] is generated
    code that is not among the sources.  The spec calls it the generic tag
    syntax, the one [html_to_text] scans with too; it is the tag alternative
    of [_TAG_RE] with ASCII names: [<], then [!] or an optional [/] and the
    name group [[a-zA-Z][a-zA-Z0-9:-]*], then the attributes and [>].  The
    result is the match at the start of [s] and its length. *)
Definition _HTML_TAG_REGEX_match (s : string) : option (tag_match * nat) :=
  match s with
  | String lt r =>
      if Ascii.eqb lt "<" then
        match r with
        | String c r1 =>
            if Ascii.eqb c "!" then
              match attrs_scan Unquoted r1 with
              | Some attrs =>
                  let g0 := "<!" ++ attrs ++ ">" in
                  Some ({| group0 := g0; group1 := None |}, String.length g0)
              | None => None
              end
            else if Ascii.eqb c "/" then named_tag_match "/" r1
            else named_tag_match "" r
        | "" => None
        end
      else None
  | "" => None
  end.

(** Modelled from the spec: [generated_sanitize._LT_REGEX], the pattern [<]
    whose matches the no-whitelist path entity-escapes. *)
Definition _LT_REGEX_match (s : string) : option (unit * nat) :=
  match s with
  | String "<" _ => Some (tt, 1)
  | _ => None
  end.

(** Modelled from the spec: [generated_sanitize.normalize_html_helper], the
    general HTML character escaping of step 3, is not among the sources.  It
    turns NUL, the two quotes, [<] and [>] into character references and
    leaves every other character as it is; [&] is one of them, as the
    reference [&#91;] that step 1 writes for a bracket has to come through
    step 3 unchanged. *)
Definition normalize_char (c : ascii) : string :=
  if Nat.eqb (code c) 0 then "&#0;"
  else if Ascii.eqb c dquote then "&quot;"
  else if Ascii.eqb c "'" then "&#39;"
  else if Ascii.eqb c "<" then "&lt;"
  else if Ascii.eqb c ">" then "&gt;"
  else String c "".

Fixpoint normalize_html_helper (s : string) : string :=
  match s with
  | "" => ""
  | String c s' => normalize_char c ++ normalize_html_helper s'
  end.

(** [_REPLACEMENT_TAG_RE], [\[(\d+)\]]: the number and the match length. *)
Definition int (digits : string) : nat :=
  match NilEmpty.uint_of_string digits with
  | Some d => Nat.of_uint d
  | None => 0
  end.

Definition _REPLACEMENT_TAG_RE_match (s : string) : option (nat * nat) :=
  match s with
  | String "[" r =>
      let (digits, r1) := span is_digit r in
      match digits, r1 with
      | String _ _, String "]" _ => Some (int digits, String.length digits + 2)
      | _, _ => None
      end
  | _ => None
  end.

(** ['%d' % n]. *)
Definition format_d (n : nat) : string :=
  NilEmpty.string_of_uint (Nat.to_uint n).

(** ** The whitelist filter *)

(** [tag[1] == '/'] on a match, which has three characters or more. *)
Definition second_is_slash (tag : string) : bool :=
  match String.get 1 tag with
  | Some c => Ascii.eqb c "/"
  | None => false
  end.

(** [_tag_sub_handler(tag_whitelist, tags, match)]: the replacement text and
    the list [tags] after the call. *)
Definition _tag_sub_handler (tag_whitelist : list string)
    (tags : list string) (m : tag_match) : string * list string :=
  let tag := group0 m in
  match option_map lower (group1 m) with
  | Some name =>
      if mem name tag_whitelist then
        let start := if second_is_slash tag then "</" else "<" in
        let index := List.length tags in
        ("[" ++ format_d index ++ "]", List.app tags [start ++ name ++ ">"])
      else ("", tags)
  | None => ("", tags)
  end.

(** The search of [_balance_tags] for the nearest open tag equal to [tag].
    The stack [open_tags] is kept with its top first (the end of the Python
    list is the head here): the result is [reversed(open_tags[index:])], top
    first, and the stack after [del open_tags[index:]]; [None] when the
    search runs off the bottom ([index < 0]). *)
Fixpoint pop_through (tag : string) (open_tags : list string)
  : option (list string * list string) :=
  match open_tags with
  | [] => None
  | t :: rest =>
      if String.eqb t tag then Some ([t], rest)
      else
        match pop_through tag rest with
        | Some (popped, rest') => Some (t :: popped, rest')
        | None => None
        end
  end.

(** The loop of [_balance_tags] from a given stack: the list [tags] as the
    loop leaves it and the stack at the end.  [tag[1]] raises [IndexError]
    on a token shorter than two characters. *)
Fixpoint balance_loop (open_tags : list string) (tags : list string)
  : result (list string * list string) :=
  match tags with
  | [] => Ok ([], open_tags)
  | tag :: rest =>
      match String.get 1 tag with
      | None => Raise IndexError
      | Some c =>
          if Ascii.eqb c "/" then
            match pop_through tag open_tags with
            | None =>
                r <- balance_loop open_tags rest ;;
                Ok ("" :: fst r, snd r)
            | Some (popped, remaining) =>
                r <- balance_loop remaining rest ;;
                Ok (join popped :: fst r, snd r)
            end
          else if _HTML5_VOID_ELEMENTS_RE_match tag then
            r <- balance_loop open_tags rest ;;
            Ok (tag :: fst r, snd r)
          else
            r <- balance_loop (("</" ++ tail tag) :: open_tags) rest ;;
            Ok (tag :: fst r, snd r)
      end
  end.

(** [_balance_tags(tags)]: the list after the call and the returned string
    of closing tags. *)
Definition _balance_tags (tags : list string) : result (list string * string) :=
  r <- balance_loop [] tags ;;
  Ok (fst r, join (snd r)).

(** [_REPLACEMENT_TAG_RE.sub(lambda match: tags[int(match.group(1))], html)];
    an index out of range raises [IndexError]. *)
Fixpoint replacement_sub (tags : list string) (skip : nat) (html : string)
  : result string :=
  match html with
  | "" => Ok ""
  | String c s' =>
      match skip with
      | S k => replacement_sub tags k s'
      | O =>
          match _REPLACEMENT_TAG_RE_match html with
          | Some (i, len) =>
              match nth_error tags i with
              | Some t =>
                  out <- replacement_sub tags (pred len) s' ;;
                  Ok (t ++ out)
              | None => Raise IndexError
              end
          | None =>
              out <- replacement_sub tags 0 s' ;;
              Ok (String c out)
          end
      end
  end.

(** [s.replace('[', '&#91;')]. *)
Fixpoint escape_bracket (s : string) : string :=
  match s with
  | "" => ""
  | String c s' =>
      if Ascii.eqb c "[" then "&#91;" ++ escape_bracket s'
      else String c (escape_bracket s')
  end.

(** [_HTML_TAG_REGEX.sub('', value)]. *)
Definition remove_tags (s : string) : string :=
  fst (re_sub _HTML_TAG_REGEX_match
         (fun (st : unit) (_ : tag_match) => ("", st)) 0 tt s).

(** [_LT_REGEX.sub('&lt;', s)]. *)
Definition escape_lt (s : string) : string :=
  fst (re_sub _LT_REGEX_match
         (fun (st : unit) (_ : unit) => ("&lt;", st)) 0 tt s).

(** [_strip_html_tags(value, tag_whitelist)].  A whitelist that is [None] or
    empty is the empty list; on that path the pattern is applied to [value]
    itself, which must be a string. *)
Definition _strip_html_tags (value : pyvalue) (tag_whitelist : list string)
  : result string :=
  match tag_whitelist with
  | [] =>
      match value with
      | PyStr s => Ok (escape_lt (remove_tags s))
      | _ => Raise (TypeError "expected string or bytes-like object")
      end
  | _ :: _ =>
      let html := escape_bracket (str value) in
      let (html1, tags) :=
        re_sub _HTML_TAG_REGEX_match (_tag_sub_handler tag_whitelist) 0 []
          html in
      let html2 := normalize_html_helper html1 in
      bt <- _balance_tags tags ;;
      html3 <- replacement_sub (fst bt) 0 html2 ;;
      Ok (html3 ++ snd bt)
  end.

(** [clean_html(value, safe_tags)].  [generated_sanitize._SAFE_TAG_WHITELIST]
    is not among the sources and is a parameter.  The list built from the
    union of two sets is read for membership and emptiness only, so the
    order of the concatenation does not show. *)
Definition clean_html (_SAFE_TAG_WHITELIST : list string) (value : pyvalue)
    (safe_tags : list string) : result instance :=
  let safe_tags :=
    match safe_tags with
    | [] => _SAFE_TAG_WHITELIST
    | _ :: _ => nodup string_dec (safe_tags ++ _SAFE_TAG_WHITELIST)%list
    end in
  match _get_content_of_kind value HTML with
  | Some html =>
      let approval := new_approval (Some "Persisting existing sanitization.") in
      construct SanitizedHtml html (get_content_dir value) (Some approval)
  | None =>
      let approval :=
        new_approval (Some "Escaped html is by nature sanitized.") in
      stripped <- _strip_html_tags value safe_tags ;;
      construct SanitizedHtml stripped (get_content_dir value) (Some approval)
  end.

(** ** HTML to text *)

Definition LF : ascii := ascii_of_nat 10.
Definition TAB : ascii := ascii_of_nat 9.
Definition CR : ascii := ascii_of_nat 13.
Definition NBSP : ascii := ascii_of_nat 160.

(** The groups of a match of [_TAG_RE]: group 1 (the name with its slash)
    and group 2 (the attributes); both [None] for a comment and for the
    empty match at the end of the text. *)
Record TAG_RE_groups : Type :=
  { tag_group : option string;
    attrs_group : option string }.

(** The lazy [.*?] of the comment alternative followed by [-->]: the number
    of characters up to the end of the first [-->] that no newline comes
    before. *)
Fixpoint comment_end (s : string) : option nat :=
  match s with
  | "" => None
  | String c s' =>
      match strip_prefix "-->" s with
      | Some _ => Some 3
      | None =>
          if Ascii.eqb c LF then None else option_map S (comment_end s')
      end
  end.

(** [[\w:-]]. *)
Definition is_tag_char (c : ascii) : bool :=
  is_word c || Ascii.eqb c ":" || Ascii.eqb c "-".

(** The first alternative of [_TAG_RE] tried at the start of [s], with the
    match length: a comment, or [<!] or a name followed by attributes.  The
    comment alternative comes first. *)
Definition _TAG_RE_match (s : string) : option (TAG_RE_groups * nat) :=
  match s with
  | String "<" r =>
      match
        match strip_prefix "!--" r with
        | Some r1 => comment_end r1
        | None => None
        end
      with
      | Some n => Some ({| tag_group := None; attrs_group := None |}, 4 + n)
      | None =>
          match r with
          | String "!" r1 =>
              match attrs_scan Unquoted r1 with
              | Some attrs =>
                  Some ({| tag_group := None; attrs_group := Some attrs |},
                        String.length attrs + 3)
              | None => None
              end
          | _ =>
              let (slash, r1) :=
                match r with
                | String "/" r1 => ("/", r1)
                | _ => ("", r)
                end in
              match r1 with
              | String c _ =>
                  if is_alpha c then
                    let (name, r2) := span is_tag_char r1 in
                    match attrs_scan Unquoted r2 with
                    | Some attrs =>
                        Some ({| tag_group := Some (slash ++ name);
                                 attrs_group := Some attrs |},
                              String.length (slash ++ name ++ attrs) + 2)
                    | None => None
                    end
                  else None
              | "" => None
              end
          end
      end
  | _ => None
  end.

(** [_TAG_RE.finditer(html)]: for each match, the text between the end of
    the match before and its start ([html[start:offset]]) and its groups.
    The last match is the empty one that [\Z] gives at the end. *)
Definition cons_gap (c : ascii) (l : list (string * TAG_RE_groups))
  : list (string * TAG_RE_groups) :=
  match l with
  | (gap, m) :: l' => (String c gap, m) :: l'
  | [] => []
  end.

Fixpoint _TAG_RE_finditer (skip : nat) (html : string)
  : list (string * TAG_RE_groups) :=
  match html with
  | "" => [("", {| tag_group := None; attrs_group := None |})]
  | String c s' =>
      match skip with
      | S k => _TAG_RE_finditer k s'
      | O =>
          match _TAG_RE_match html with
          | Some (m, len) => ("", m) :: _TAG_RE_finditer (pred len) s'
          | None => cons_gap c (_TAG_RE_finditer 0 s')
          end
      end
  end.

(** ASCII case folding, what [re.IGNORECASE] amounts to for a pattern of
    ASCII letters on the first 256 code points. *)
Definition fold_case_char (c : ascii) : ascii :=
  if in_range 65 90 c then ascii_of_nat (code c + 32) else c.

Fixpoint fold_case (s : string) : string :=
  match s with
  | "" => ""
  | String c s' => String (fold_case_char c) (fold_case s')
  end.

(** [re.compile('(n1|n2|...)$', re.IGNORECASE).match(s)]: [s] is one of the
    names up to case; [$] also matches before one final newline. *)
Definition match_names (names : list string) (s : string) : bool :=
  existsb (fun n => String.eqb (fold_case s) n
                    || String.eqb (fold_case s) (n ++ String LF ""))
          names.

Definition _REMOVING_TAGS_RE_match : string -> bool :=
  match_names ["script"; "style"; "textarea"; "title"].

Definition _WS_PRESERVING_TAGS_RE_match : string -> bool :=
  match_names ["pre"].

Definition _NEWLINE_TAGS_RE_match : string -> bool :=
  match_names ["br"].

Definition BLOCK_TAGS : list string :=
  ["address"; "blockquote"; "dd"; "div"; "dl"; "dt"; "h1"; "h2"; "h3"; "h4";
   "h5"; "h6"; "hr"; "li"; "ol"; "p"; "pre"; "table"; "tr"; "ul"].

(** [_BLOCK_TAGS_RE.match(s)]: an optional slash before the name. *)
Definition _BLOCK_TAGS_RE_match (s : string) : bool :=
  match s with
  | String "/" r => match_names BLOCK_TAGS r
  | _ => match_names BLOCK_TAGS s
  end.

Definition _TAB_TAGS_RE_match : string -> bool :=
  match_names ["td"; "th"].

Definition _PRESERVE_WHITESPACE_STYLES_RE_match : string -> bool :=
  match_names ["pre"; "pre-wrap"; "break-spaces"].

Definition _COLLAPSE_WHITESPACE_STYLES_RE_match : string -> bool :=
  match_names ["normal"; "nowrap"].

(** [[ \t\r\n]]. *)
Definition is_html_space (c : ascii) : bool :=
  Ascii.eqb c " " || Ascii.eqb c TAB || Ascii.eqb c CR || Ascii.eqb c LF.

(** [_HTML_WHITESPACE_RE.sub(' ', chunk)]; [in_run] tells that the
    character before belongs to the run already replaced. *)
Fixpoint collapse_whitespace (in_run : bool) (chunk : string) : string :=
  match chunk with
  | "" => ""
  | String c s' =>
      if is_html_space c then
        if in_run then collapse_whitespace true s'
        else String " " (collapse_whitespace true s')
      else String c (collapse_whitespace false s')
  end.

Fixpoint last_char (s : string) : option ascii :=
  match s with
  | "" => None
  | String c "" => Some c
  | String _ s' => last_char s'
  end.

(** [_TRAILING_NON_WHITESPACE_RE.search(text)]. *)
Definition _TRAILING_NON_WHITESPACE_RE_search (text : string) : bool :=
  match last_char text with
  | Some c => negb (is_html_space c)
  | None => false
  end.

(** [_TRAILING_NON_NEWLINE_RE.search(text)]. *)
Definition _TRAILING_NON_NEWLINE_RE_search (text : string) : bool :=
  match last_char text with
  | Some c => negb (Ascii.eqb c LF)
  | None => false
  end.

(** [_LEADING_SPACE_RE.sub('', chunk)]. *)
Definition strip_leading_space (chunk : string) : string :=
  match chunk with
  | String " " s' => s'
  | _ => chunk
  end.

(** [text.replace(NBSP, ' ')], NBSP being U+00A0. *)
Fixpoint replace_nbsp (text : string) : string :=
  match text with
  | "" => ""
  | String c s' =>
      String (if Ascii.eqb c NBSP then " "%char else c) (replace_nbsp s')
  end.

(** [s[1:-1]]. *)
Fixpoint drop_last (s : string) : string :=
  match s with
  | "" => ""
  | String _ "" => ""
  | String c s' => String c (drop_last s')
  end.

(** [_ATTR_RE] at the start of [s]: the name, the quoted value and the
    match length.  The name class also holds the backslash. *)
Definition is_attr_name_char (c : ascii) : bool :=
  is_alpha c || is_digit c || Ascii.eqb c ":" || Nat.eqb (code c) 92
  || Ascii.eqb c "-".

Definition is_attr_space (c : ascii) : bool :=
  Ascii.eqb c TAB || Ascii.eqb c LF || Ascii.eqb c CR || Ascii.eqb c " ".

Definition _ATTR_RE_match (s : string) : option ((string * string) * nat) :=
  match s with
  | String c _ =>
      if is_alpha c then
        let (name, r1) := span is_attr_name_char s in
        let (ws1, r2) := span is_attr_space r1 in
        match r2 with
        | String "=" r3 =>
            let (ws2, r4) := span is_attr_space r3 in
            match r4 with
            | String q r5 =>
                if is_quote q then
                  let (body, r6) := span (fun d => negb (Ascii.eqb d q)) r5 in
                  match r6 with
                  | String _ _ =>
                      let value := String q (body ++ String q "") in
                      Some ((name, value),
                            String.length name + String.length ws1 + 1
                            + String.length ws2 + String.length value)
                  | "" => None
                  end
                else None
            | "" => None
            end
        | _ => None
        end
      else None
  | "" => None
  end.

(** [pattern.finditer(s)] for a pattern that never matches the empty
    string. *)
Section FindIter.
Variable M : Type.
Variable matcher : string -> option (M * nat).

Fixpoint re_finditer (skip : nat) (s : string) : list M :=
  match s with
  | "" => []
  | String _ s' =>
      match skip with
      | S k => re_finditer k s'
      | O =>
          match matcher s with
          | Some (m, len) => m :: re_finditer (pred len) s'
          | None => re_finditer 0 s'
          end
      end
  end.
End FindIter.
Arguments re_finditer {M} matcher skip s.

(** [_STYLE_RE] at the start of [s]: the property, its value and the match
    length.  Every class is followed by something outside it, so the
    greedy choice is the only one. *)
Definition is_style_char (c : ascii) : bool :=
  negb (Ascii.eqb c ":" || Ascii.eqb c ";" || is_attr_space c).

Definition _STYLE_RE_match (s : string) : option ((string * string) * nat) :=
  let (ws1, r1) := span is_attr_space s in
  let (prop, r2) := span is_style_char r1 in
  let (ws2, r3) := span is_attr_space r2 in
  match r3 with
  | String ":" r4 =>
      let (ws3, r5) := span is_attr_space r4 in
      let (val, r6) := span is_style_char r5 in
      let (ws4, r7) := span is_attr_space r6 in
      let len := String.length ws1 + String.length prop + String.length ws2
                 + 1 + String.length ws3 + String.length val
                 + String.length ws4 in
      match r7 with
      | "" => Some ((prop, val), len)
      | String ";" _ => Some ((prop, val), len + 1)
      | _ => None
      end
  | _ => None
  end.

(** The loop of [get_style_preserves_whitespace] over the matches. *)
Fixpoint style_loop (matches : list (string * string)) : option bool :=
  match matches with
  | [] => None
  | (style_attribute, style_attribute_value) :: rest =>
      match style_attribute with
      | String _ _ =>
          if String.eqb (lower style_attribute) "white-space" then
            if _PRESERVE_WHITESPACE_STYLES_RE_match style_attribute_value
            then Some true
            else if _COLLAPSE_WHITESPACE_STYLES_RE_match style_attribute_value
            then Some false
            else style_loop rest
          else style_loop rest
      | "" => style_loop rest
      end
  end.

Definition get_style_preserves_whitespace (style : string) : option bool :=
  style_loop (re_finditer _STYLE_RE_match 0 style).

(** The loop of [get_attributes_preserve_whitespace]: the first [style]
    attribute decides.  Its value always carries its quotes. *)
Fixpoint attrs_loop (matches : list (string * string)) : option bool :=
  match matches with
  | [] => None
  | (attribute_name, style) :: rest =>
      if String.eqb (lower attribute_name) "style"
      then get_style_preserves_whitespace (drop_last (tail style))
      else attrs_loop rest
  end.

Definition get_attributes_preserve_whitespace (attrs : option string)
  : option bool :=
  match attrs with
  | None | Some "" => None
  | Some a => attrs_loop (re_finditer _ATTR_RE_match 0 a)
  end.

(** The whitespace stack, top first (the end of the Python list). *)
Definition frame : Type := (string * bool)%type.

Definition should_preserve_whitespace (stack : list frame) : bool :=
  match stack with
  | (_, preserve) :: _ => preserve
  | [] => false
  end.

(** [while stack and stack.pop()[0] != tag: pass]. *)
Fixpoint pop_until (tag : string) (stack : list frame) : list frame :=
  match stack with
  | [] => []
  | (name, _) :: rest =>
      if String.eqb name tag then rest else pop_until tag rest
  end.

Definition update_preserve_whitespace_stack (tag : string)
    (attrs : option string) (stack : list frame) : list frame :=
  match tag with
  | String "/" name => pop_until name stack
  | _ =>
      if _WS_PRESERVING_TAGS_RE_match tag then (tag, true) :: stack
      else
        let preserve_whitespace :=
          match get_attributes_preserve_whitespace attrs with
          | Some b => b
          | None => should_preserve_whitespace stack
          end in
        (tag, preserve_whitespace) :: stack
  end.

(** The local variables of [html_to_text] that the loop updates; [start]
    is the cut between the gaps that [_TAG_RE_finditer] delivers. *)
Record state : Type :=
  { text : string;
    removing_until : string;
    preserve_whitespace_stack : list frame }.

Section HtmlToText.
(** [html.unescape] returns a string without [&] as it is and otherwise
    substitutes the character references ([_charref.sub]); the table of
    the standard library is a parameter. *)
Variable charref_sub : string -> string.

Fixpoint contains_amp (s : string) : bool :=
  match s with
  | "" => false
  | String c s' => Ascii.eqb c "&" || contains_amp s'
  end.

Definition unescape (s : string) : string :=
  if contains_amp s then charref_sub s else s.

(** The text gap before a tag, as it is appended to the buffer. *)
Definition gap_text (st : state) (gap : string) : string :=
  let chunk := unescape gap in
  if should_preserve_whitespace (preserve_whitespace_stack st) then chunk
  else
    let chunk := collapse_whitespace false chunk in
    if _TRAILING_NON_WHITESPACE_RE_search (text st) then chunk
    else strip_leading_space chunk.

(** The buffer after the tag [tag] was seen, and [removing_until]. *)
Definition tag_text (text0 tag : string) : string * string :=
  if _REMOVING_TAGS_RE_match tag then (text0, "/" ++ tag)
  else if _NEWLINE_TAGS_RE_match tag then (text0 ++ String LF "", "")
  else if _BLOCK_TAGS_RE_match tag then
    (if _TRAILING_NON_NEWLINE_RE_search text0
     then text0 ++ String LF "" else text0, "")
  else if _TAB_TAGS_RE_match tag then (text0 ++ String TAB "", "")
  else (text0, "").

(** One turn of the loop [for match in _TAG_RE.finditer(html)]. *)
Definition html_to_text_step (st : state) (x : string * TAG_RE_groups)
  : state :=
  let (gap, m) := x in
  let tag :=
    match tag_group m with
    | Some (String c g) => Some (lower (String c g))
    | _ => None
    end in
  let attrs := attrs_group m in
  match removing_until st with
  | "" =>
      let text1 := text st ++ gap_text st gap in
      match tag with
      | Some (String c t) =>
          let tag := String c t in
          let (text2, removing) := tag_text text1 tag in
          {| text := text2;
             removing_until := removing;
             preserve_whitespace_stack :=
               if _HTML5_VOID_ELEMENTS_RE_match ("<" ++ tag ++ ">")
               then preserve_whitespace_stack st
               else update_preserve_whitespace_stack tag attrs
                      (preserve_whitespace_stack st) |}
      | _ =>
          {| text := text1;
             removing_until := "";
             preserve_whitespace_stack := preserve_whitespace_stack st |}
      end
  | String _ _ =>
      match tag with
      | Some t =>
          if String.eqb (removing_until st) t
          then {| text := text st;
                  removing_until := "";
                  preserve_whitespace_stack := preserve_whitespace_stack st |}
          else st
      | None => st
      end
  end.

Definition initial_state : state :=
  {| text := ""; removing_until := ""; preserve_whitespace_stack := [] |}.

Definition html_to_text (value : pyvalue) : string :=
  match value with
  | PyNone => ""
  | _ =>
      let html := str value in
      if negb (isinstance_SanitizedHtml value) then html
      else
        replace_nbsp
          (text (fold_left html_to_text_step (_TAG_RE_finditer 0 html)
                   initial_state))
  end.
End HtmlToText.

(** ** Notions used to state the properties *)

(** The tags of a text, in order: for each match of [_HTML_TAG_REGEX] with
    a name, whether it is a closing tag, and the name. *)
Definition tag_of_match (m : tag_match) : list (bool * string) :=
  match group1 m with
  | Some name =>
      [(second_is_slash (group0 m), name)]
  | None => []
  end.

Definition tags_of (html : string) : list (bool * string) :=
  flat_map tag_of_match (re_finditer _HTML_TAG_REGEX_match 0 html).

(** A void element: one of the sixteen names. *)
Definition is_void_element (name : string) : bool :=
  mem name HTML5_VOID_ELEMENTS.

(** Every opening tag of an element that is not void is followed, somewhere,
    by a closing tag of the same name. *)
Fixpoint openers_closed (ts : list (bool * string)) : bool :=
  match ts with
  | [] => true
  | (false, name) :: rest =>
      (is_void_element name
       || existsb (fun t => fst t && String.eqb (snd t) name) rest)
      && openers_closed rest
  | (true, _) :: rest => openers_closed rest
  end.

(** The tags are well nested: a closing tag closes the innermost open
    element, and nothing stays open.  [void] tells which opening tags open
    nothing. *)
Fixpoint well_nested (void : string -> bool) (stack : list string)
    (ts : list (bool * string)) : bool :=
  match ts with
  | [] => match stack with [] => true | _ :: _ => false end
  | (false, name) :: rest =>
      if void name then well_nested void stack rest
      else well_nested void (name :: stack) rest
  | (true, name) :: rest =>
      match stack with
      | top :: stack' => String.eqb top name && well_nested void stack' rest
      | [] => false
      end
  end.

(** The opening tag [<name>] is one that [_balance_tags] does not push. *)
Definition void_by_pattern (name : string) : bool :=
  _HTML5_VOID_ELEMENTS_RE_match ("<" ++ name ++ ">").

Definition ends_with_newline (s : string) : bool :=
  match last_char s with
  | Some c => Ascii.eqb c LF
  | None => false
  end.

(** The rule for a block-level tag as the specification words it: after the
    turn of the loop the buffer (the text gap included) has gained a newline
    if and only if it did not end with one. *)
Definition block_tag_rule (charref_sub : string -> string) (st : state)
    (gap : string) (m : TAG_RE_groups) : Prop :=
  let buffer := text st ++ gap_text charref_sub st gap in
  text (html_to_text_step charref_sub st (gap, m))
  = if ends_with_newline buffer then buffer else buffer ++ String LF "".

(** ** The filter seen through the list of its items

    The text after the tag substitution is a sequence of characters that
    stay and of whitelisted tags; [Tok t] stands where the tag [t] was
    found. *)

Fixpoint all_chars (p : ascii -> bool) (s : string) : bool :=
  match s with
  | "" => true
  | String c s' => p c && all_chars p s'
  end.

Inductive item : Type :=
| Chr (c : ascii)
| Tok (t : string).

(** What [_tag_sub_handler] keeps of a match. *)
Definition token_of (tag_whitelist : list string) (m : tag_match)
  : list item :=
  match option_map lower (group1 m) with
  | Some name =>
      if mem name tag_whitelist
      then [Tok ((if second_is_slash (group0 m) then "</" else "<")
                 ++ name ++ ">")]
      else []
  | None => []
  end.

Fixpoint tag_items (tag_whitelist : list string) (skip : nat) (s : string)
  : list item :=
  match s with
  | "" => []
  | String c s' =>
      match skip with
      | S k => tag_items tag_whitelist k s'
      | O =>
          match _HTML_TAG_REGEX_match s with
          | Some (m, len) =>
              (token_of tag_whitelist m
               ++ tag_items tag_whitelist (pred len) s')%list
          | None => Chr c :: tag_items tag_whitelist 0 s'
          end
      end
  end.

Fixpoint tokens (items : list item) : list string :=
  match items with
  | [] => []
  | Chr _ :: rest => tokens rest
  | Tok t :: rest => t :: tokens rest
  end.

(** The items with the markers [[n]], [[n+1]], ... in place of the tags. *)
Fixpoint render_ph (n : nat) (items : list item) : string :=
  match items with
  | [] => ""
  | Chr c :: rest => String c (render_ph n rest)
  | Tok _ :: rest => "[" ++ format_d n ++ "]" ++ render_ph (S n) rest
  end.

(** The items with the strings of [ts], in order, in place of the tags. *)
Fixpoint render_seq (ts : list string) (items : list item) : string :=
  match items with
  | [] => ""
  | Chr c :: rest => String c (render_seq ts rest)
  | Tok _ :: rest =>
      match ts with
      | t :: ts' => t ++ render_seq ts' rest
      | [] => render_seq [] rest
      end
  end.

(** The items as text, each tag written out. *)
Fixpoint flat (items : list item) : string :=
  match items with
  | [] => ""
  | Chr c :: rest => String c (flat rest)
  | Tok t :: rest => t ++ flat rest
  end.

Fixpoint chars (s : string) : list item :=
  match s with
  | "" => []
  | String c s' => Chr c :: chars s'
  end.

(** [normalize_html_helper] on the items. *)
Fixpoint norm_items (items : list item) : list item :=
  match items with
  | [] => []
  | Chr c :: rest => (chars (normalize_char c) ++ norm_items rest)%list
  | Tok t :: rest => Tok t :: norm_items rest
  end.

(** Each tag replaced by the tags of the list that stands for it. *)
Fixpoint expand (lists : list (list string)) (items : list item)
  : list item :=
  match items with
  | [] => []
  | Chr c :: rest => Chr c :: expand lists rest
  | Tok _ :: rest =>
      match lists with
      | l :: ls => (map Tok l ++ expand ls rest)%list
      | [] => expand [] rest
      end
  end.

(** The loop of [_balance_tags] with, for each tag, the list of the tags
    that replace it. *)
Fixpoint balance_out (open_tags : list string) (tags : list string)
  : list (list string) * list string :=
  match tags with
  | [] => ([], open_tags)
  | tag :: rest =>
      if second_is_slash tag then
        match pop_through tag open_tags with
        | None =>
            let r := balance_out open_tags rest in ([] :: fst r, snd r)
        | Some (popped, remaining) =>
            let r := balance_out remaining rest in (popped :: fst r, snd r)
        end
      else if _HTML5_VOID_ELEMENTS_RE_match tag then
        let r := balance_out open_tags rest in ([tag] :: fst r, snd r)
      else
        let r := balance_out (("</" ++ tail tag) :: open_tags) rest in
        ([tag] :: fst r, snd r)
  end.

(** A name that the tag pattern can match: a letter, then name
    characters. *)
Definition valid_name (name : string) : bool :=
  match name with
  | String c r => is_alpha c && all_chars is_name_char r
  | "" => false
  end.

(** A name as the filter writes it: in lower case and on the whitelist. *)
Definition clean_name (tag_whitelist : list string) (name : string) : bool :=
  valid_name name && String.eqb (lower name) name && mem name tag_whitelist.

Inductive clean_token (tag_whitelist : list string) : string -> Prop :=
| clean_open (name : string) :
    clean_name tag_whitelist name = true ->
    clean_token tag_whitelist ("<" ++ name ++ ">")
| clean_close (name : string) :
    clean_name tag_whitelist name = true ->
    clean_token tag_whitelist ("</" ++ name ++ ">").

(** A character that the filter leaves alone. *)
Definition safe_char (c : ascii) : bool :=
  negb (Nat.eqb (code c) 0 || Ascii.eqb c dquote || Ascii.eqb c "'"
        || Ascii.eqb c "<" || Ascii.eqb c ">" || Ascii.eqb c "[").

Inductive clean_item (tag_whitelist : list string) : item -> Prop :=
| clean_Chr (c : ascii) : safe_char c = true -> clean_item tag_whitelist (Chr c)
| clean_Tok (t : string) :
    clean_token tag_whitelist t -> clean_item tag_whitelist (Tok t).

(** The tag of a token, as [tags_of] reports it. *)
Definition tag_of_token (t : string) : bool * string :=
  (second_is_slash t,
   fst (span is_name_char (if second_is_slash t then tail (tail t) else tail t))).

(** ** Classes of characters and items used in the proofs *)

(** The character is not [<]. *)
Definition no_lt (c : ascii) : bool := negb (Ascii.eqb c "<").

(** The character is not the opening bracket of a marker. *)
Definition no_bracket (c : ascii) : bool := negb (Ascii.eqb c "[").

(** The characters of the items are all in the class [p]. *)
Fixpoint chars_in (p : ascii -> bool) (items : list item) : bool :=
  match items with
  | [] => true
  | Chr c :: rest => p c && chars_in p rest
  | Tok _ :: rest => chars_in p rest
  end.

(** A character that [normalize_html_helper] leaves as it is. *)
Definition normal_char (c : ascii) : bool :=
  negb (Nat.eqb (code c) 0 || Ascii.eqb c dquote || Ascii.eqb c "'"
        || Ascii.eqb c "<" || Ascii.eqb c ">").

(** A closing tag as the stack of open tags holds it. *)
Definition closer (t : string) : Prop := exists r, t = "</" ++ r.

(** Each tag standing for itself. *)
Definition singletons (l : list string) : list (list string) :=
  map (fun t => [t]) l.

(** The items of the input after the tag substitution and normalization. *)
Definition input_items (wl : list string) (value : pyvalue) : list item :=
  norm_items (tag_items wl 0 (escape_bracket (str value))).

(** The items of the output: each tag replaced by what balancing made of
    it, and the closing tags of the end. *)
Definition output_items (wl : list string) (value : pyvalue) : list item :=
  let r := balance_out [] (tokens (input_items wl value)) in
  (expand (fst r) (input_items wl value) ++ map Tok (snd r))%list.

(** The names of the elements that the stack of closing tags keeps open. *)
Definition stack_names (open_tags : list string) : list string :=
  map (fun t => snd (tag_of_token t)) open_tags.

(** ** Other directives of the module *)

(** [_INNOCUOUS_OUTPUT]. *)
Definition _INNOCUOUS_OUTPUT : string := "zSoyz".

(** [s] without its last character when that is a newline: [$] matches at
    the end of the text and before a newline that ends it. *)
Fixpoint before_final_newline (s : string) : string :=
  match s with
  | "" => ""
  | String c "" => if Ascii.eqb c LF then "" else s
  | String c s' => String c (before_final_newline s')
  end.

(** [_NUMBER_RE.match(s)], the pattern being [\d*\.?\d+$]: up to the end (or
    the newline that ends the text) there are digits only, or digits, a dot
    and digits, and a digit comes last.  The engine finds the split by
    giving digits back from [\d*]; which split it finds does not show.
    The digits are those of [is_digit]: the match is that of Python on
    texts within U+0000..U+00FF only. *)
Definition _NUMBER_RE_match (s : string) : bool :=
  let (digits, rest) := span is_digit (before_final_newline s) in
  match rest with
  | "" => match digits with "" => false | String _ _ => true end
  | String c fraction =>
      Ascii.eqb c "."
      && match fraction with
         | "" => false
         | String _ _ => all_chars is_digit fraction
         end
  end.

(** [filter_number(value)]. *)
Definition filter_number (value : pyvalue) : string :=
  if _NUMBER_RE_match (str value) then str value else _INNOCUOUS_OUTPUT.

(** [ascii_to_lower(c)] of [filter_html_script_phrasing_data]. *)
Definition ascii_to_lower (c : ascii) : ascii :=
  if in_range 65 90 c then lower_char c else c.

(** [match_prefix_ignore_case_past_end(needle, haystack, offset)], on
    [haystack[offset:]]: the characters compared are those the text still
    has, so a text that ends inside the needle matches. *)
Fixpoint match_prefix_ignore_case_past_end (needle haystack : string) : bool :=
  match needle, haystack with
  | String n needle', String h haystack' =>
      if Ascii.eqb n (ascii_to_lower h)
      then match_prefix_ignore_case_past_end needle' haystack'
      else false
  | _, _ => true
  end.

(** The loop of [filter_html_script_phrasing_data] over the occurrences of
    [<], from [value_str[start:]]: [true] when one of them starts a comment
    or a closing script tag. *)
Fixpoint phrasing_hazard (value_str : string) : bool :=
  match value_str with
  | "" => false
  | String c rest =>
      if Ascii.eqb c "<" then
        if match_prefix_ignore_case_past_end "<!--" value_str
           || match_prefix_ignore_case_past_end "</script" value_str
        then true
        else phrasing_hazard rest
      else phrasing_hazard rest
  end.

Definition filter_html_script_phrasing_data (value : pyvalue) : string :=
  if phrasing_hazard (str value) then "zSoyz" else str value.

(** [_HTML_RAW_CONTENT_HAZARD_RE], [<\/|\]\]>], at the start of [s]: the
    text matched and its length. *)
Definition _HTML_RAW_CONTENT_HAZARD_RE_match (s : string)
  : option (string * nat) :=
  match strip_prefix "</" s with
  | Some _ => Some ("</", 2)
  | None =>
      match strip_prefix "]]>" s with
      | Some _ => Some ("]]>", 3)
      | None => None
      end
  end.

Definition BACKSLASH : ascii := ascii_of_nat 92.

(** [_HTML_RAW_CONTENT_HAZARD_REPLACEMENTS]. *)
Definition _HTML_RAW_CONTENT_HAZARD_REPLACEMENTS : list (string * string) :=
  [("</", String "<" (String BACKSLASH "/"));
   ("]]>", String "]" (String "]" (String BACKSLASH ">")))].

(** [d[key]] on a dictionary kept as a list of pairs. *)
Fixpoint dict_get (d : list (string * string)) (key : string)
  : option string :=
  match d with
  | [] => None
  | (k, v) :: d' => if String.eqb k key then Some v else dict_get d' key
  end.

(** [_defang_raw_content_hazard(match)]; the two texts that the pattern
    matches are the two keys, so the lookup never fails. *)
Definition _defang_raw_content_hazard (st : unit) (group0 : string)
  : string * unit :=
  (match dict_get _HTML_RAW_CONTENT_HAZARD_REPLACEMENTS group0 with
   | Some v => v
   | None => ""
   end, st).

(** [_embed_css_into_html(css)]. *)
Definition _embed_css_into_html (css : string) : string :=
  fst (re_sub _HTML_RAW_CONTENT_HAZARD_RE_match _defang_raw_content_hazard
         0 tt css).

(** [_NEWLINE_RE], [(\r\n|\r|\n)], at the start of [s]: the match length. *)
Definition _NEWLINE_RE_match (s : string) : option (unit * nat) :=
  match s with
  | String c rest =>
      if Ascii.eqb c CR then
        match rest with
        | String d _ => if Ascii.eqb d LF then Some (tt, 2) else Some (tt, 1)
        | "" => Some (tt, 1)
        end
      else if Ascii.eqb c LF then Some (tt, 1)
      else None
  | "" => None
  end.

(** [_NEWLINE_RE.sub('<br>', s)]. *)
Definition newline_to_br (s : string) : string :=
  fst (re_sub _NEWLINE_RE_match (fun (st : unit) (_ : unit) => ("<br>", st))
         0 tt s).

(** [change_newline_to_br(value)]: a [SanitizedHtml] for a value of kind
    HTML, a string for any other value. *)
Definition change_newline_to_br (value : pyvalue) : result pyvalue :=
  match _get_content_of_kind value HTML with
  | Some html =>
      let approval := new_approval (Some "Persisting existing sanitization.") in
      v <- construct SanitizedHtml (newline_to_br html)
             (get_content_dir value) (Some approval) ;;
      Ok (PySanitized v)
  | None => Ok (PyStr (newline_to_br (str value)))
  end.

(** [s.replace(';', '%3B')]. *)
Fixpoint escape_semicolon (s : string) : string :=
  match s with
  | "" => ""
  | String c s' =>
      if Ascii.eqb c ";" then "%3B" ++ escape_semicolon s'
      else String c (escape_semicolon s')
  end.

Section UriFilters.
(** The helpers of [generated_sanitize] are not among the sources and are
    parameters. *)
Variable normalize_uri_helper : string -> string.
Variable filter_normalize_uri_helper : pyvalue -> string.

Definition normalize_uri (value : string) : string :=
  normalize_uri_helper value.

Definition filter_normalize_uri (value : pyvalue) : string :=
  match
    match _get_content_of_kind value URI with
    | Some uri => Some uri
    | None => _get_content_of_kind value TRUSTED_RESOURCE_URI
    end
  with
  | None => filter_normalize_uri_helper value
  | Some uri => normalize_uri uri
  end.

Definition filter_normalize_refresh_uri (value : pyvalue) : string :=
  escape_semicolon (filter_normalize_uri value).
End UriFilters.

(** [filter_trusted_resource_uri(value)]. *)
Definition filter_trusted_resource_uri (value : pyvalue) : string :=
  match _get_content_of_kind value TRUSTED_RESOURCE_URI with
  | Some uri => uri
  | None => "about:invalid#" ++ _INNOCUOUS_OUTPUT
  end.

(** [filter_css_value(value)]; [filter_css_value_helper] is a parameter. *)
Definition filter_css_value (filter_css_value_helper : pyvalue -> string)
    (value : pyvalue) : string :=
  match _get_content_of_kind value CSS with
  | Some css => _embed_css_into_html css
  | None =>
      match value with
      | PyNone => ""
      | _ => filter_css_value_helper value
      end
  end.

(** The text holds [needle] somewhere. *)
Fixpoint contains (needle s : string) : bool :=
  match strip_prefix needle s with
  | Some _ => true
  | None =>
      match s with
      | "" => false
      | String _ s' => contains needle s'
      end
  end.

(** ** Notions used to state the further properties *)

(** The tag opens an element that [_balance_tags] has to close. *)
Definition opens (tag : string) : Prop :=
  (exists c, String.get 1 tag = Some c /\ Ascii.eqb c "/" = false)
  /\ _HTML5_VOID_ELEMENTS_RE_match tag = false.

(** The closing tag that [_balance_tags] makes of an opening tag. *)
Definition closing_tag_of (tag : string) : string := "</" ++ tail tag.

(** The character is neither a carriage return nor a line feed. *)
Definition no_newline (c : ascii) : bool :=
  negb (Ascii.eqb c CR || Ascii.eqb c LF).

(** The character is not a semicolon. *)
Definition no_semicolon (c : ascii) : bool := negb (Ascii.eqb c ";").

(** A digit, a dot or a line feed. *)
Definition number_char (c : ascii) : bool :=
  is_digit c || Ascii.eqb c "." || Ascii.eqb c LF.

(** The first character of the text is [ch]. *)
Definition starts_with_char (ch : ascii) (s : string) : bool :=
  match s with
  | String d _ => Ascii.eqb ch d
  | "" => false
  end.

(** The text has no tab, carriage return or line feed and no two spaces
    in a row; [after_space] tells that a space comes just before. *)
Fixpoint collapsed (after_space : bool) (s : string) : bool :=
  match s with
  | "" => true
  | String c s' =>
      if Ascii.eqb c " " then negb after_space && collapsed true s'
      else negb (is_html_space c) && collapsed false s'
  end.

(** The groups of a match without any. *)
Definition no_match : TAG_RE_groups :=
  {| tag_group := None; attrs_group := None |}.

(** The text [gap] put before the first match. *)
Definition with_gap (gap : string) (l : list (string * TAG_RE_groups))
  : list (string * TAG_RE_groups) :=
  match l with
  | (g, m) :: l' => (gap ++ g, m) :: l'
  | [] => []
  end.

(** What is between the opening tag [<name>] and the closing tag is
    dropped, whatever it is, as long as it holds no [<]. *)
Definition raw_text_dropped (charref_sub : string -> string) (name : string)
  : Prop :=
  forall body dir,
    all_chars no_lt body = true ->
    html_to_text charref_sub
      (PySanitized {| cls := SanitizedHtml;
                      content := "<" ++ name ++ ">" ++ body
                                 ++ "</" ++ name ++ ">";
                      content_dir := dir |}) = "".

(** The character is not the non-breaking space. *)
Definition no_nbsp (c : ascii) : bool := negb (Ascii.eqb c NBSP).




(** * Properties *)

(** ** Sanitized classes *)

Lemma construct_with_kind (c : sanitized_class) (content0 : string)
    (dir : option DIR)
    (approval : option IActuallyUnderstandSoyTypeSafetyAndHaveSecurityApproval) :
  content_kind c <> None ->
  construct c content0 dir approval
  = SanitizedContent_init c content0 (dir_of_class c dir) approval.
Proof.
  destruct c; intros Hk; try reflexivity. now exfalso.
Qed.

Lemma construct_without_kind (c : sanitized_class) (content0 : string)
    (dir : option DIR)
    (approval : option IActuallyUnderstandSoyTypeSafetyAndHaveSecurityApproval) :
  content_kind c = None ->
  exists msg, construct c content0 dir approval = Raise (TypeError msg).
Proof.
  destruct c; intros Hk; try discriminate Hk.
  unfold construct; simpl; eauto.
Qed.

Lemma init_sufficient (c : sanitized_class) (content0 : string)
    (dir : option DIR)
    (a : IActuallyUnderstandSoyTypeSafetyAndHaveSecurityApproval) :
  ~ insufficient a ->
  SanitizedContent_init c content0 dir (Some a)
  = Ok {| cls := c; content := content0; content_dir := dir |}.
Proof.
  unfold insufficient, SanitizedContent_init.
  destruct (justification a) as [j|]; [|tauto].
  intros Hlen. destruct j as [|ch j']; [simpl in Hlen; lia|].
  destruct (Nat.ltb_spec (String.length (String ch j')) 20);
    [contradiction|reflexivity].
Qed.

Lemma init_insufficient (c : sanitized_class) (content0 : string)
    (dir : option DIR)
    (a : IActuallyUnderstandSoyTypeSafetyAndHaveSecurityApproval) :
  insufficient a ->
  exists msg,
    SanitizedContent_init c content0 dir (Some a) = Raise (TypeError msg).
Proof.
  unfold insufficient, SanitizedContent_init.
  destruct (justification a) as [j|]; [|eauto].
  intros Hlen. destruct j as [|ch j']; [eauto|].
  destruct (Nat.ltb_spec (String.length (String ch j')) 20); [eauto|lia].
Qed.

Lemma insufficient_dec
    (a : IActuallyUnderstandSoyTypeSafetyAndHaveSecurityApproval) :
  insufficient a \/ ~ insufficient a.
Proof.
  unfold insufficient. destruct (justification a) as [j|]; [|now left].
  destruct (Nat.lt_ge_cases (String.length j) 20); [now left|right; lia].
Qed.

(** C3: constructing an instance raises [TypeError] exactly when the
    approval is not an approval instance, or its justification is missing or
    shorter than 20 characters, or the class has no content kind (the base
    class); with a content kind and a justification of 20 characters or
    more the instance is built, whatever the content. *)
Theorem construct_raises_iff (c : sanitized_class) (content0 : string)
    (dir : option DIR)
    (approval : option IActuallyUnderstandSoyTypeSafetyAndHaveSecurityApproval) :
  ((exists msg, construct c content0 dir approval = Raise (TypeError msg))
   <-> (approval = None
        \/ (exists a, approval = Some a /\ insufficient a)
        \/ content_kind c = None))
  /\ (forall a, approval = Some a -> ~ insufficient a ->
      content_kind c <> None ->
      construct c content0 dir approval
      = Ok {| cls := c; content := content0;
              content_dir := dir_of_class c dir |}).
Proof.
  split.
  - split.
    + intros [msg H].
      destruct approval as [a|]; [|now left].
      destruct (content_kind c) eqn:Hk; [|now right; right].
      right; left. exists a. split; [reflexivity|].
      destruct (insufficient_dec a) as [Hi|Hi]; [exact Hi|].
      rewrite construct_with_kind in H by congruence.
      rewrite init_sufficient in H by exact Hi. discriminate H.
    + intros [Hn | [[a [Ha Hins]] | Hk]].
      * subst. destruct (content_kind c) eqn:Hk.
        -- rewrite construct_with_kind by congruence. simpl; eauto.
        -- now apply construct_without_kind.
      * subst. destruct (content_kind c) eqn:Hk.
        -- rewrite construct_with_kind by congruence.
           now apply init_insufficient.
        -- now apply construct_without_kind.
      * now apply construct_without_kind.
  - intros a Ha Hins Hk. subst.
    rewrite construct_with_kind by exact Hk.
    now apply init_sufficient.
Qed.

Lemma construct_raises_iff_witness :
  construct SanitizedJs "alert(1)" (Some RTL)
    (Some (new_approval (Some "Escaped html is by nature sanitized.")))
  = Ok {| cls := SanitizedJs; content := "alert(1)"; content_dir := Some LTR |}.
Proof.
  apply (proj2 (construct_raises_iff SanitizedJs "alert(1)" (Some RTL)
                  (Some (new_approval
                           (Some "Escaped html is by nature sanitized."))))
           (new_approval (Some "Escaped html is by nature sanitized."))).
  - reflexivity.
  - unfold insufficient; simpl; lia.
  - discriminate.
Defined.

(** ** [clean_html] and [html_to_text] on values of other kinds *)

Lemma is_content_kind_HTML (v : instance) :
  is_content_kind (PySanitized v) HTML = true -> cls v = SanitizedHtml.
Proof.
  unfold is_content_kind. destruct (cls v); cbv; congruence.
Qed.

(** C9: on a value of kind HTML, [clean_html] returns a [SanitizedHtml]
    with the same content and the same direction, whatever the default
    whitelist and [safe_tags] are: nothing is filtered. *)
Theorem clean_html_keeps_html (_SAFE_TAG_WHITELIST : list string)
    (v : instance) (safe_tags : list string) :
  is_content_kind (PySanitized v) HTML = true ->
  clean_html _SAFE_TAG_WHITELIST (PySanitized v) safe_tags = Ok v.
Proof.
  intros Hk. pose proof (is_content_kind_HTML v Hk) as Hc.
  unfold clean_html, _get_content_of_kind. rewrite Hk.
  destruct v as [c s d]; simpl in Hc; subst c. reflexivity.
Qed.

Lemma clean_html_keeps_html_witness :
  clean_html ["b"; "i"]
    (PySanitized {| cls := SanitizedHtml;
                    content := "<script>x</script><table>";
                    content_dir := Some RTL |}) ["ul"]
  = Ok {| cls := SanitizedHtml; content := "<script>x</script><table>";
          content_dir := Some RTL |}.
Proof.
  apply clean_html_keeps_html. reflexivity.
Defined.

(** C8 as stated fails on [None]: [html_to_text] returns the empty string,
    not the string form of [None]. *)
Lemma html_to_text_None_differs :
  is_content_kind PyNone HTML = false
  /\ html_to_text (fun s => s) PyNone <> str PyNone.
Proof.
  split; [reflexivity|discriminate].
Qed.

(** C8, amended: a value other than [None] that is not of kind HTML comes
    back as its string form, unchanged; [None] gives the empty string. *)
Theorem html_to_text_other_kinds (charref_sub : string -> string)
    (value : pyvalue) :
  is_content_kind value HTML = false ->
  html_to_text charref_sub value
  = match value with PyNone => "" | _ => str value end.
Proof.
  intros Hk. destruct value as [|s|v|s]; try reflexivity.
  unfold html_to_text.
  replace (isinstance_SanitizedHtml (PySanitized v)) with false; [reflexivity|].
  unfold is_content_kind in Hk. unfold isinstance_SanitizedHtml.
  destruct (cls v); cbv in *; congruence.
Qed.

Lemma html_to_text_other_kinds_witness :
  html_to_text (fun s => s)
    (PySanitized {| cls := SanitizedJs; content := "<p>a &amp; b</p>";
                    content_dir := Some LTR |})
  = "<p>a &amp; b</p>".
Proof.
  apply (html_to_text_other_kinds (fun s => s)
           (PySanitized {| cls := SanitizedJs; content := "<p>a &amp; b</p>";
                           content_dir := Some LTR |})).
  reflexivity.
Defined.

(** ** The loop of [html_to_text] *)

Lemma pop_until_no_match (tag : string) (stack : list frame) :
  (forall f, In f stack -> fst f <> tag) -> pop_until tag stack = [].
Proof.
  induction stack as [|[name b] stack IH]; intros H; [reflexivity|].
  simpl. destruct (String.eqb_spec name tag) as [E|_].
  - exfalso. apply (H (name, b)); [now left|exact E].
  - apply IH. intros f Hf. apply H. now right.
Qed.

(** C10: outside a raw-text region, a closing tag whose name is that of no
    frame leaves the whitespace stack empty, and then the text is not
    preserved. *)
Theorem stray_closing_tag_empties_stack (charref_sub : string -> string)
    (st : state) (gap name : string) (attrs : option string) :
  removing_until st = "" ->
  (forall f, In f (preserve_whitespace_stack st) -> fst f <> lower name) ->
  let st' := html_to_text_step charref_sub st
               (gap, {| tag_group := Some ("/" ++ name);
                        attrs_group := attrs |}) in
  preserve_whitespace_stack st' = []
  /\ should_preserve_whitespace (preserve_whitespace_stack st') = false.
Proof.
  intros Hr Hno st'.
  assert (H : preserve_whitespace_stack st' = []).
  { subst st'. unfold html_to_text_step. rewrite Hr.
    cbn [tag_group attrs_group append].
    change (lower (String "/" name)) with (String "/" (lower name)).
    cbv iota.
    destruct (tag_text _ _) as [t2 r].
    cbn [preserve_whitespace_stack].
    change (_HTML5_VOID_ELEMENTS_RE_match
              (String "<" (String "/" (lower name ++ ">")))) with false.
    cbv iota. unfold update_preserve_whitespace_stack.
    now apply pop_until_no_match. }
  rewrite H. split; reflexivity.
Qed.

Lemma stray_closing_tag_empties_stack_witness :
  preserve_whitespace_stack
    (html_to_text_step (fun s => s)
       {| text := "a"; removing_until := "";
          preserve_whitespace_stack := [("b", true); ("pre", true)] |}
       (" x", {| tag_group := Some "/I"; attrs_group := Some "" |})) = [].
Proof.
  apply (stray_closing_tag_empties_stack (fun s => s)
           {| text := "a"; removing_until := "";
              preserve_whitespace_stack := [("b", true); ("pre", true)] |}
           " x" "I" (Some "")).
  - reflexivity.
  - simpl. intros f [E | [E | []]]; subst f; discriminate.
Defined.

(** The three patterns tried before and at a block-level tag, on the names
    of the list and on their closing forms. *)
Lemma tag_text_block (name : string) :
  In name BLOCK_TAGS ->
  forall (tag buffer : string),
    tag = name \/ tag = "/" ++ name ->
    tag_text buffer tag
    = (if _TRAILING_NON_NEWLINE_RE_search buffer
       then buffer ++ String LF "" else buffer, "").
Proof.
  intros Hin tag buffer Htag. unfold BLOCK_TAGS in Hin. simpl in Hin.
  repeat (destruct Hin as [Hin|Hin];
          [subst name; destruct Htag; subst tag; reflexivity|]).
  contradiction.
Qed.

Lemma block_tag_not_empty (name : string) : In name BLOCK_TAGS -> name <> "".
Proof.
  intros Hin E. subst name. unfold BLOCK_TAGS in Hin. simpl in Hin.
  repeat (destruct Hin as [Hin|Hin]; [discriminate Hin|]). contradiction.
Qed.

(** C7 as stated fails on the empty buffer: it does not end with a newline,
    and the block-level tag adds none. *)
Lemma block_tag_rule_fails_on_empty_buffer :
  ~ block_tag_rule (fun s => s) initial_state ""
      {| tag_group := Some "p"; attrs_group := Some "" |}.
Proof.
  unfold block_tag_rule. vm_compute. discriminate.
Qed.

(** C7, amended: outside a raw-text region, a tag whose name, or closing
    form, is block-level adds a newline to the buffer (the text gap
    included) if and only if the buffer is not empty and does not end with
    a newline; an empty buffer stays empty. *)
Theorem block_tag_newline (charref_sub : string -> string) (st : state)
    (gap name g : string) (attrs : option string) :
  removing_until st = "" ->
  In name BLOCK_TAGS ->
  lower g = name \/ lower g = "/" ++ name ->
  let buffer := text st ++ gap_text charref_sub st gap in
  text (html_to_text_step charref_sub st
          (gap, {| tag_group := Some g; attrs_group := attrs |}))
  = match last_char buffer with
    | Some c => if Ascii.eqb c LF then buffer else buffer ++ String LF ""
    | None => buffer
    end.
Proof.
  intros Hr Hin Hg buffer.
  pose proof (block_tag_not_empty name Hin) as Hne.
  destruct g as [|c g'].
  { exfalso. destruct Hg as [E|E]; simpl in E; [now apply Hne|discriminate E]. }
  unfold html_to_text_step. rewrite Hr. cbn [tag_group attrs_group].
  destruct (lower (String c g')) as [|c1 t1] eqn:El.
  { discriminate El. }
  fold buffer.
  rewrite (tag_text_block name Hin (String c1 t1) buffer Hg).
  cbn [text]. unfold _TRAILING_NON_NEWLINE_RE_search.
  destruct (last_char buffer) as [l|]; [|reflexivity].
  destruct (Ascii.eqb l LF); reflexivity.
Qed.

Lemma block_tag_newline_witness :
  text (html_to_text_step (fun s => s)
          {| text := "a"; removing_until := "";
             preserve_whitespace_stack := [] |}
          (" b", {| tag_group := Some "/DIV"; attrs_group := Some "" |}))
  = "a b" ++ String LF "".
Proof.
  apply (block_tag_newline (fun s => s)
           {| text := "a"; removing_until := "";
              preserve_whitespace_stack := [] |}
           " b" "div" "/DIV" (Some "")).
  - reflexivity.
  - unfold BLOCK_TAGS. simpl. tauto.
  - right. reflexivity.
Defined.

(** ** The whitelist filter on the examples *)

(** C2 as stated fails: the text between the removed tags stays. *)
Lemma strip_b_example_differs :
  _strip_html_tags (PyStr "<b>ok<i>bad</i></b>") ["b"] <> Ok "<b>ok</b>".
Proof.
  vm_compute. discriminate.
Qed.

(** C2, amended: with the whitelist [b], the filter removes the tags [<i>]
    and [</i>] of the example and keeps their content. *)
Theorem strip_b_example :
  _strip_html_tags (PyStr "<b>ok<i>bad</i></b>") ["b"] = Ok "<b>okbad</b>".
Proof.
  vm_compute. reflexivity.
Qed.

(** ** [_balance_tags] *)

Lemma balance_loop_app (a b : list string) :
  forall open_tags,
    balance_loop open_tags (a ++ b)%list
    = (r1 <- balance_loop open_tags a ;;
       r2 <- balance_loop (snd r1) b ;;
       Ok ((fst r1 ++ fst r2)%list, snd r2)).
Proof.
  induction a as [|tag a IH]; intros open_tags.
  - simpl. destruct (balance_loop open_tags b) as [[t s]|e]; reflexivity.
  - cbn [List.app balance_loop].
    destruct (String.get 1 tag) as [c|]; [|reflexivity].
    destruct (Ascii.eqb c "/").
    + destruct (pop_through tag open_tags) as [[popped remaining]|];
        rewrite IH;
        (destruct (balance_loop _ a) as [[t s]|e]; [|reflexivity]);
        cbn [bind fst snd];
        (destruct (balance_loop s b) as [[t' s']|e']; reflexivity).
    + destruct (_HTML5_VOID_ELEMENTS_RE_match tag);
        rewrite IH;
        (destruct (balance_loop _ a) as [[t s]|e]; [|reflexivity]);
        cbn [bind fst snd];
        (destruct (balance_loop s b) as [[t' s']|e']; reflexivity).
Qed.

Lemma pop_through_not_in (tag : string) (open_tags : list string) :
  ~ In tag open_tags -> pop_through tag open_tags = None.
Proof.
  induction open_tags as [|t rest IH]; intros Hn; [reflexivity|].
  simpl. destruct (String.eqb_spec t tag) as [E|_].
  - exfalso. apply Hn. now left.
  - rewrite IH; [reflexivity|]. intros Hin. apply Hn. now right.
Qed.

(** C4: a closing tag that is not on the stack of open tags is replaced by
    the empty string and the loop goes on with the stack as it was; on the
    example the leading [</table>] is dropped. *)
Theorem dangling_close_dropped (before after : list string) (tag : string)
    (before' open_tags : list string) :
  balance_loop [] before = Ok (before', open_tags) ->
  String.get 1 tag = Some "/"%char ->
  ~ In tag open_tags ->
  _balance_tags (before ++ tag :: after)%list
  = (r <- balance_loop open_tags after ;;
     Ok ((before' ++ "" :: fst r)%list, join (snd r)))
  /\ _strip_html_tags (PyStr "</table><tr>x</tr>") ["table"; "tr"]
     = Ok "<tr>x</tr>".
Proof.
  intros Hb Hc Hn. split; [|vm_compute; reflexivity].
  unfold _balance_tags. rewrite balance_loop_app, Hb.
  cbn [bind fst snd balance_loop]. rewrite Hc. cbn [Ascii.eqb Bool.eqb].
  rewrite (pop_through_not_in tag open_tags Hn).
  destruct (balance_loop open_tags after) as [[t s]|e]; reflexivity.
Qed.

Lemma dangling_close_dropped_witness :
  _balance_tags ["<b>"; "</i>"; "</b>"] = Ok (["<b>"; ""; "</b>"], "").
Proof.
  apply (proj1 (dangling_close_dropped ["<b>"] ["</b>"] "</i>" ["<b>"] ["</b>"]
                  eq_refl eq_refl
                  (fun H => match H with
                            | or_introl E => ltac:(discriminate E)
                            | or_intror F => F
                            end))).
Defined.

(** ** Strings *)

Lemma append_nil_r (s : string) : s ++ "" = s.
Proof. induction s as [|c s IH]; simpl; [reflexivity|now rewrite IH]. Qed.

Lemma append_assoc (a b c : string) : (a ++ b) ++ c = a ++ b ++ c.
Proof. induction a as [|x a IH]; simpl; [reflexivity|now rewrite IH]. Qed.

Lemma length_append (a b : string) :
  String.length (a ++ b) = String.length a + String.length b.
Proof. induction a as [|x a IH]; simpl; [reflexivity|now rewrite IH]. Qed.

Lemma all_chars_append (p : ascii -> bool) (a b : string) :
  all_chars p (a ++ b) = all_chars p a && all_chars p b.
Proof.
  induction a as [|x a IH]; simpl; [reflexivity|].
  now rewrite IH, andb_assoc.
Qed.

Lemma all_chars_impl (p q : ascii -> bool) (s : string) :
  (forall c, p c = true -> q c = true) ->
  all_chars p s = true -> all_chars q s = true.
Proof.
  intros Hpq. induction s as [|c s IH]; simpl; [reflexivity|].
  rewrite !andb_true_iff. intros [H1 H2]. split; auto.
Qed.

(** Character classes, by enumeration of the 256 characters. *)
Ltac by_cases_on c :=
  destruct c as [[] [] [] [] [] [] [] []]; try reflexivity; try discriminate.

Lemma span_all (p : ascii -> bool) (a b : string) :
  all_chars p a = true ->
  match b with "" => True | String c _ => p c = false end ->
  span p (a ++ b) = (a, b).
Proof.
  intros Ha Hb. induction a as [|x a IH]; simpl in *.
  - destruct b as [|c b]; [reflexivity|]. simpl. now rewrite Hb.
  - apply andb_true_iff in Ha as [Hx Ha]. rewrite Hx, (IH Ha). reflexivity.
Qed.

(** ** Skipping a match *)

Lemma tag_items_skip (wl : list string) (a b : string) (k : nat) :
  tag_items wl (String.length a + k) (a ++ b) = tag_items wl k b.
Proof. induction a as [|x a IH]; simpl; [reflexivity|exact IH]. Qed.

Lemma replacement_sub_skip (tags : list string) (a b : string) (k : nat) :
  replacement_sub tags (String.length a + k) (a ++ b)
  = replacement_sub tags k b.
Proof. induction a as [|x a IH]; simpl; [reflexivity|exact IH]. Qed.

Lemma re_finditer_skip {M : Type} (matcher : string -> option (M * nat))
    (a b : string) (k : nat) :
  re_finditer matcher (String.length a + k) (a ++ b)
  = re_finditer matcher k b.
Proof. induction a as [|x a IH]; simpl; [reflexivity|exact IH]. Qed.

(** ** The no-whitelist path *)

Lemma tag_match_needs_lt (c : ascii) (s : string) :
  no_lt c = true -> _HTML_TAG_REGEX_match (String c s) = None.
Proof. unfold no_lt. by_cases_on c. Qed.

Lemma lt_match_needs_lt (c : ascii) (s : string) :
  no_lt c = true -> _LT_REGEX_match (String c s) = None.
Proof. unfold no_lt. by_cases_on c. Qed.

Lemma lt_match_lt (c : ascii) (s : string) :
  no_lt c = false -> _LT_REGEX_match (String c s) = Some (tt, 1).
Proof. unfold no_lt. by_cases_on c. Qed.

Lemma re_sub_no_lt {M St : Type} (matcher : string -> option (M * nat))
    (handler : St -> M -> string * St) (st : St) (s : string) :
  (forall c r, no_lt c = true -> matcher (String c r) = None) ->
  all_chars no_lt s = true ->
  re_sub matcher handler 0 st s = (s, st).
Proof.
  intros Hm. induction s as [|c s IH]; simpl; [reflexivity|].
  rewrite andb_true_iff. intros [Hc Hs].
  rewrite (Hm c s Hc), (IH Hs). reflexivity.
Qed.

Lemma escape_lt_no_lt (s : string) : all_chars no_lt (escape_lt s) = true.
Proof.
  unfold escape_lt. induction s as [|c s IH]; [reflexivity|].
  cbn [re_sub]. destruct (no_lt c) eqn:Hc.
  - rewrite (lt_match_needs_lt c s Hc).
    destruct (re_sub _ _ 0 tt s) as [out st]. simpl in *. now rewrite Hc.
  - rewrite (lt_match_lt c s Hc). cbn [pred].
    destruct (re_sub _ _ 0 tt s) as [out st]. simpl in *. exact IH.
Qed.

Lemma strip_no_whitelist_idempotent (s : string) :
  exists out, _strip_html_tags (PyStr s) [] = Ok out
              /\ _strip_html_tags (PyStr out) [] = Ok out.
Proof.
  exists (escape_lt (remove_tags s)). split; [reflexivity|].
  cbn [_strip_html_tags].
  pose proof (escape_lt_no_lt (remove_tags s)) as H.
  set (out := escape_lt (remove_tags s)) in *.
  unfold remove_tags at 1, escape_lt at 1.
  rewrite (re_sub_no_lt _HTML_TAG_REGEX_match _ tt out tag_match_needs_lt H).
  cbn [fst].
  rewrite (re_sub_no_lt _LT_REGEX_match _ tt out lt_match_needs_lt H).
  reflexivity.
Qed.

(** ** The tag substitution and its items *)

Lemma tokens_app (a b : list item) : tokens (a ++ b) = (tokens a ++ tokens b)%list.
Proof.
  induction a as [|[c|t] a IH]; simpl; [reflexivity|exact IH|now rewrite IH].
Qed.

Lemma handler_token (wl tags : list string) (m : tag_match) :
  _tag_sub_handler wl tags m
  = (render_ph (List.length tags) (token_of wl m),
     (tags ++ tokens (token_of wl m))%list).
Proof.
  unfold _tag_sub_handler, token_of.
  destruct (option_map lower (group1 m)) as [name|]; simpl;
    [|now rewrite app_nil_r].
  destruct (mem name wl); simpl; [|now rewrite app_nil_r].
  reflexivity.
Qed.

Lemma token_of_length (wl : list string) (m : tag_match) :
  token_of wl m = [] \/ exists t, token_of wl m = [Tok t].
Proof.
  unfold token_of. destruct (option_map lower (group1 m)) as [name|];
    [|now left].
  destruct (mem name wl); [right; eauto|now left].
Qed.

Lemma render_ph_token (wl : list string) (m : tag_match) (n : nat)
    (rest : list item) :
  render_ph n (token_of wl m ++ rest)
  = render_ph n (token_of wl m)
    ++ render_ph (n + List.length (tokens (token_of wl m))) rest.
Proof.
  destruct (token_of_length wl m) as [E|[t E]]; rewrite E; simpl.
  - now rewrite Nat.add_0_r.
  - rewrite Nat.add_1_r, append_assoc. reflexivity.
Qed.

Lemma tag_sub_items (wl : list string) (s : string) :
  forall (skip : nat) (tags : list string),
    re_sub _HTML_TAG_REGEX_match (_tag_sub_handler wl) skip tags s
    = (render_ph (List.length tags) (tag_items wl skip s),
       (tags ++ tokens (tag_items wl skip s))%list).
Proof.
  induction s as [|c s IH]; intros skip tags.
  - simpl. now rewrite app_nil_r.
  - cbn [re_sub tag_items]. destruct skip as [|k]; [|apply IH].
    destruct (_HTML_TAG_REGEX_match (String c s)) as [[m len]|].
    + rewrite handler_token, IH, render_ph_token, tokens_app.
      rewrite length_app, app_assoc. reflexivity.
    + rewrite IH. reflexivity.
Qed.

(** ** The markers *)

Lemma string_of_uint_digits (d : uint) :
  all_chars is_digit (NilEmpty.string_of_uint d) = true.
Proof. induction d; simpl; auto. Qed.

Lemma format_d_digits (n : nat) : all_chars is_digit (format_d n) = true.
Proof. apply string_of_uint_digits. Qed.

Lemma format_d_not_empty (n : nat) :
  exists c r, format_d n = String c r.
Proof.
  unfold format_d.
  assert (H : Nat.to_uint n <> Nil).
  { destruct n as [|n]; [discriminate|].
    intros E. pose proof (Unsigned.of_to (S n)) as H. rewrite E in H.
    discriminate H. }
  destruct (Nat.to_uint n); try contradiction; simpl; eauto.
Qed.

Lemma int_format_d (n : nat) : int (format_d n) = n.
Proof.
  unfold int, format_d. rewrite NilEmpty.usu. apply Unsigned.of_to.
Qed.

Lemma marker_match (n : nat) (rest : string) :
  _REPLACEMENT_TAG_RE_match ("[" ++ format_d n ++ "]" ++ rest)
  = Some (n, String.length (format_d n) + 2).
Proof.
  cbn [append _REPLACEMENT_TAG_RE_match].
  rewrite (span_all is_digit (format_d n) (String "]" rest));
    [|apply format_d_digits|reflexivity].
  destruct (format_d_not_empty n) as [c [r E]].
  rewrite <- (int_format_d n) at 2. rewrite E. reflexivity.
Qed.

Lemma marker_needs_bracket (c : ascii) (s : string) :
  no_bracket c = true -> _REPLACEMENT_TAG_RE_match (String c s) = None.
Proof. unfold no_bracket. by_cases_on c. Qed.

Lemma chars_in_app (p : ascii -> bool) (a b : list item) :
  chars_in p (a ++ b) = chars_in p a && chars_in p b.
Proof.
  induction a as [|[c|t] a IH]; simpl; [reflexivity| |exact IH].
  now rewrite IH, andb_assoc.
Qed.

Lemma chars_in_chars (p : ascii -> bool) (s : string) :
  chars_in p (chars s) = all_chars p s.
Proof. induction s as [|c s IH]; simpl; [reflexivity|now rewrite IH]. Qed.

(** *** Normalization leaves the markers alone *)

Lemma normalize_append (a b : string) :
  normalize_html_helper (a ++ b)
  = normalize_html_helper a ++ normalize_html_helper b.
Proof.
  induction a as [|c a IH]; simpl; [reflexivity|].
  now rewrite IH, append_assoc.
Qed.

Lemma normalize_normal_char (c : ascii) :
  normal_char c = true -> normalize_char c = String c "".
Proof. unfold normal_char. by_cases_on c. Qed.

Lemma normalize_normal (s : string) :
  all_chars normal_char s = true -> normalize_html_helper s = s.
Proof.
  induction s as [|c s IH]; simpl; [reflexivity|].
  rewrite andb_true_iff. intros [Hc Hs].
  now rewrite (normalize_normal_char c Hc), (IH Hs).
Qed.

Lemma digit_normal (c : ascii) : is_digit c = true -> normal_char c = true.
Proof. by_cases_on c. Qed.

Lemma render_ph_chars (n : nat) (s : string) (rest : list item) :
  render_ph n (chars s ++ rest) = s ++ render_ph n rest.
Proof. induction s as [|c s IH]; simpl; [reflexivity|now rewrite IH]. Qed.

Lemma normalize_render_ph (items : list item) :
  forall n,
    normalize_html_helper (render_ph n items) = render_ph n (norm_items items).
Proof.
  induction items as [|[c|t] items IH]; intros n;
    cbn [render_ph norm_items normalize_html_helper].
  - reflexivity.
  - now rewrite render_ph_chars, IH.
  - rewrite !normalize_append, IH.
    rewrite (normalize_normal (format_d n)); [reflexivity|].
    apply (all_chars_impl is_digit); [exact digit_normal|].
    apply format_d_digits.
Qed.

(** *** The markers are replaced by the tags, in order *)

Lemma marker_sub (items : list item) :
  forall (before ts : list string),
    chars_in no_bracket items = true ->
    List.length (tokens items) <= List.length ts ->
    replacement_sub (before ++ ts) 0 (render_ph (List.length before) items)
    = Ok (render_seq ts items).
Proof.
  induction items as [|[c|t] items IH]; intros before ts Hc Hl.
  - reflexivity.
  - simpl in Hc. apply andb_true_iff in Hc as [Hc Hi].
    cbn [render_ph replacement_sub]. rewrite (marker_needs_bracket c _ Hc).
    rewrite (IH before ts Hi Hl). reflexivity.
  - simpl in Hc, Hl. destruct ts as [|t0 ts]; [simpl in Hl; lia|].
    simpl in Hl. cbn [render_ph render_seq].
    pose proof (marker_match (List.length before) (render_ph (S (List.length before)) items)) as Hm.
    cbn [append] in Hm |- *. cbn [replacement_sub]. rewrite Hm.
    rewrite nth_error_app2, Nat.sub_diag by lia. cbn [nth_error].
    rewrite Nat.add_comm. cbn [Nat.add pred].
    change (String "]" (render_ph (S (List.length before)) items))
      with ("]" ++ render_ph (S (List.length before)) items).
    rewrite <- (Nat.add_1_r (String.length _)).
    rewrite replacement_sub_skip. cbn [append replacement_sub].
    replace (before ++ t0 :: ts)%list with ((before ++ [t0]) ++ ts)%list
      by (now rewrite <- app_assoc).
    replace (S (List.length before)) with (List.length (before ++ [t0])%list)
      by (rewrite length_app; simpl; lia).
    rewrite IH by (assumption || lia). reflexivity.
Qed.

(** ** Balancing twice *)

Lemma closer_second (t : string) : closer t -> second_is_slash t = true.
Proof. intros [r E]. subst t. reflexivity. Qed.

Lemma second_is_slash_get (t : string) :
  second_is_slash t = true -> String.get 1 t = Some "/"%char.
Proof.
  unfold second_is_slash. destruct (String.get 1 t) as [c|]; [|discriminate].
  intros H. apply Ascii.eqb_eq in H. now subst c.
Qed.

Lemma pop_through_split (tag : string) (open_tags : list string) :
  forall popped remaining,
    pop_through tag open_tags = Some (popped, remaining) ->
    open_tags = (popped ++ remaining)%list.
Proof.
  induction open_tags as [|t rest IH]; intros popped remaining H;
    [discriminate H|].
  simpl in H. destruct (String.eqb t tag).
  - injection H as <- <-. reflexivity.
  - destruct (pop_through tag rest) as [[p r]|]; [|discriminate H].
    injection H as <- <-. simpl. f_equal. now apply IH.
Qed.

Lemma balance_out_closers (tags : list string) :
  forall open_tags,
    Forall closer open_tags ->
    Forall closer (snd (balance_out open_tags tags)).
Proof.
  induction tags as [|tag rest IH]; intros open_tags Hs; [exact Hs|].
  cbn [balance_out]. destruct (second_is_slash tag).
  - destruct (pop_through tag open_tags) as [[popped remaining]|] eqn:Hp.
    + apply IH. apply pop_through_split in Hp. subst open_tags.
      apply Forall_app in Hs. tauto.
    + now apply IH.
  - destruct (_HTML5_VOID_ELEMENTS_RE_match tag); cbn [snd]; apply IH;
      [exact Hs|].
    constructor; [|exact Hs]. now exists (tail tag).
Qed.

(** The loop with its exceptions agrees with [balance_out] on tags of two
    characters or more. *)
Lemma balance_loop_out (tags : list string) :
  forall open_tags,
    Forall (fun t => String.get 1 t <> None) tags ->
    balance_loop open_tags tags
    = Ok (map join (fst (balance_out open_tags tags)),
          snd (balance_out open_tags tags)).
Proof.
  induction tags as [|tag rest IH]; intros open_tags Hall; [reflexivity|].
  inversion Hall as [|? ? Hg Hrest]; subst.
  cbn [balance_loop balance_out]. unfold second_is_slash.
  destruct (String.get 1 tag) as [c|]; [|contradiction].
  destruct (Ascii.eqb c "/").
  - destruct (pop_through tag open_tags) as [[popped remaining]|];
      rewrite IH by assumption; reflexivity.
  - destruct (_HTML5_VOID_ELEMENTS_RE_match tag);
      rewrite IH by assumption; cbn [bind fst snd map join];
      rewrite append_nil_r; reflexivity.
Qed.

Lemma rebalance_popped (popped : list string) :
  forall remaining rest,
    Forall closer popped ->
    balance_out (popped ++ remaining) (popped ++ rest)
    = ((singletons popped ++ fst (balance_out remaining rest))%list,
       snd (balance_out remaining rest)).
Proof.
  induction popped as [|p popped IH]; intros remaining rest Hc.
  - simpl. now destruct (balance_out remaining rest).
  - inversion Hc as [|? ? Hp Hc']; subst.
    cbn [List.app balance_out]. rewrite (closer_second p Hp).
    cbn [pop_through]. rewrite String.eqb_refl.
    rewrite (IH remaining rest Hc'). reflexivity.
Qed.

(** Balancing what the loop produced, from the same stack, changes nothing
    and ends with the same stack. *)
Lemma rebalance (tags : list string) :
  forall open_tags more,
    Forall closer open_tags ->
    let r := balance_out open_tags tags in
    balance_out open_tags (concat (fst r) ++ more)
    = ((singletons (concat (fst r)) ++ fst (balance_out (snd r) more))%list,
       snd (balance_out (snd r) more)).
Proof.
  induction tags as [|tag rest IH]; intros open_tags more Hs.
  - simpl. now destruct (balance_out open_tags more).
  - cbn zeta. cbn [balance_out].
    destruct (second_is_slash tag) eqn:Hsl.
    + destruct (pop_through tag open_tags) as [[popped remaining]|] eqn:Hp.
      * cbn [fst snd concat].
        pose proof (pop_through_split _ _ _ _ Hp) as E. subst open_tags.
        apply Forall_app in Hs as [Hpop Hrem].
        rewrite <- app_assoc, (rebalance_popped popped _ _ Hpop).
        specialize (IH remaining more Hrem). cbn zeta in IH. rewrite IH.
        cbn [fst snd]. unfold singletons. rewrite map_app, <- app_assoc.
        reflexivity.
      * cbn [fst snd concat List.app]. apply (IH open_tags more Hs).
    + destruct (_HTML5_VOID_ELEMENTS_RE_match tag) eqn:Hv.
      * cbn [fst snd concat List.app balance_out]. rewrite Hsl, Hv.
        specialize (IH open_tags more Hs). cbn zeta in IH. rewrite IH.
        reflexivity.
      * cbn [fst snd concat List.app balance_out]. rewrite Hsl, Hv.
        assert (Hs' : Forall closer (("</" ++ tail tag) :: open_tags)).
        { constructor; [now exists (tail tag)|exact Hs]. }
        specialize (IH _ more Hs'). cbn zeta in IH. rewrite IH.
        reflexivity.
Qed.

Lemma rebalance_all (tags : list string) :
  let r := balance_out [] tags in
  balance_out [] (concat (fst r) ++ snd r)
  = (singletons (concat (fst r) ++ snd r), []).
Proof.
  cbn zeta.
  pose proof (rebalance tags [] (snd (balance_out [] tags)) (Forall_nil _)) as H.
  cbn zeta in H. rewrite H.
  pose proof (balance_out_closers tags [] (Forall_nil _)) as Hc.
  pose proof (rebalance_popped (snd (balance_out [] tags)) [] [] Hc) as H2.
  rewrite !app_nil_r in H2. rewrite H2. cbn [balance_out fst snd].
  unfold singletons. rewrite map_app. reflexivity.
Qed.

Lemma join_singletons (l : list string) : map join (singletons l) = l.
Proof.
  induction l as [|t l IH]; simpl; [reflexivity|].
  now rewrite append_nil_r, IH.
Qed.

(** ** Character classes *)

Lemma alpha_name_char (c : ascii) : is_alpha c = true -> is_name_char c = true.
Proof. by_cases_on c. Qed.

Lemma alpha_not_bang (c : ascii) : is_alpha c = true -> Ascii.eqb c "!" = false.
Proof. by_cases_on c. Qed.

Lemma alpha_not_slash (c : ascii) : is_alpha c = true -> Ascii.eqb c "/" = false.
Proof. by_cases_on c. Qed.

Lemma lower_alpha (c : ascii) : is_alpha c = true -> is_alpha (lower_char c) = true.
Proof. by_cases_on c. Qed.

Lemma lower_name_char (c : ascii) :
  is_name_char c = true -> is_name_char (lower_char c) = true.
Proof. by_cases_on c. Qed.

Lemma lower_char_idempotent (c : ascii) :
  lower_char (lower_char c) = lower_char c.
Proof. by_cases_on c. Qed.

Lemma name_char_no_bracket (c : ascii) :
  is_name_char c = true -> no_bracket c = true.
Proof. by_cases_on c. Qed.

Lemma safe_no_bracket (c : ascii) : safe_char c = true -> no_bracket c = true.
Proof. by_cases_on c. Qed.

Lemma safe_normal (c : ascii) : safe_char c = true -> normal_char c = true.
Proof. by_cases_on c. Qed.

Lemma safe_no_lt (c : ascii) : safe_char c = true -> no_lt c = true.
Proof. by_cases_on c. Qed.

Lemma normalize_char_safe (c : ascii) :
  no_bracket c = true -> all_chars safe_char (normalize_char c) = true.
Proof. by_cases_on c. Qed.

(** ** Names *)

Lemma lower_idempotent (s : string) : lower (lower s) = lower s.
Proof.
  induction s as [|c s IH]; simpl; [reflexivity|].
  now rewrite lower_char_idempotent, IH.
Qed.

Lemma lower_all_name_chars (s : string) :
  all_chars is_name_char s = true -> all_chars is_name_char (lower s) = true.
Proof.
  induction s as [|c s IH]; simpl; [reflexivity|].
  rewrite !andb_true_iff. intros [Hc Hs]. split; [|auto].
  now apply lower_name_char.
Qed.

Lemma lower_valid (name : string) :
  valid_name name = true -> valid_name (lower name) = true.
Proof.
  destruct name as [|c r]; simpl; [discriminate|].
  rewrite !andb_true_iff. intros [Hc Hr]. split.
  - now apply lower_alpha.
  - now apply lower_all_name_chars.
Qed.

Lemma valid_all_name_chars (name : string) :
  valid_name name = true -> all_chars is_name_char name = true.
Proof.
  destruct name as [|c r]; simpl; [discriminate|].
  rewrite !andb_true_iff. intros [Hc Hr]. split; [|exact Hr].
  now apply alpha_name_char.
Qed.

Lemma span_fst_all (p : ascii -> bool) (s : string) :
  all_chars p (fst (span p s)) = true.
Proof.
  induction s as [|c s IH]; simpl; [reflexivity|].
  destruct (p c) eqn:Hc; [|reflexivity].
  destruct (span p s) as [a b]. simpl in *. now rewrite Hc.
Qed.

Lemma span_name_valid (c : ascii) (r : string) :
  is_alpha c = true ->
  valid_name (fst (span is_name_char (String c r))) = true.
Proof.
  intros Hc. simpl. rewrite (alpha_name_char c Hc).
  pose proof (span_fst_all is_name_char r) as H.
  destruct (span is_name_char r) as [a b]. simpl in *. now rewrite Hc.
Qed.

(** ** What the pattern matches *)

Lemma named_tag_match_valid (slash r1 : string) (m : tag_match) (len : nat) :
  named_tag_match slash r1 = Some (m, len) ->
  exists g, group1 m = Some g /\ valid_name g = true.
Proof.
  unfold named_tag_match. destruct r1 as [|c r]; [discriminate|].
  destruct (is_alpha c) eqn:Hc; [|discriminate].
  pose proof (span_name_valid c r Hc) as Hv.
  destruct (span is_name_char (String c r)) as [name r2].
  destruct (attrs_scan Unquoted r2) as [attrs|]; [|discriminate].
  intros H. injection H as <- _. exists name. split; [reflexivity|exact Hv].
Qed.

Lemma tag_match_valid (s : string) (m : tag_match) (len : nat) :
  _HTML_TAG_REGEX_match s = Some (m, len) ->
  match group1 m with
  | Some g => valid_name g = true
  | None => True
  end.
Proof.
  unfold _HTML_TAG_REGEX_match. destruct s as [|lt r]; [discriminate|].
  destruct (Ascii.eqb lt "<"); [|discriminate].
  destruct r as [|c r1]; [discriminate|].
  destruct (Ascii.eqb c "!").
  - destruct (attrs_scan Unquoted r1); [|discriminate].
    intros H. injection H as <- _. exact I.
  - destruct (Ascii.eqb c "/"); intros H;
      apply named_tag_match_valid in H as [g [-> Hg]]; exact Hg.
Qed.

Lemma token_of_clean (wl : list string) (s : string) (m : tag_match)
    (len : nat) :
  _HTML_TAG_REGEX_match s = Some (m, len) ->
  Forall (clean_token wl) (tokens (token_of wl m))
  /\ forall p, chars_in p (token_of wl m) = true.
Proof.
  intros H. apply tag_match_valid in H. unfold token_of.
  destruct (group1 m) as [g|]; simpl; [|split; [constructor|reflexivity]].
  destruct (mem (lower g) wl) eqn:Hm; simpl;
    [|split; [constructor|reflexivity]].
  assert (Hc : clean_name wl (lower g) = true).
  { unfold clean_name. rewrite (lower_valid g H), lower_idempotent, Hm.
    now rewrite String.eqb_refl. }
  split; [|reflexivity]. constructor; [|constructor].
  destruct (second_is_slash (group0 m)).
  - now apply clean_close.
  - now apply clean_open.
Qed.

Lemma tag_items_clean (wl : list string) (p : ascii -> bool) (s : string) :
  all_chars p s = true ->
  forall skip,
    Forall (clean_token wl) (tokens (tag_items wl skip s))
    /\ chars_in p (tag_items wl skip s) = true.
Proof.
  induction s as [|c s IH]; intros Hp skip; [split; [constructor|reflexivity]|].
  simpl in Hp. apply andb_true_iff in Hp as [Hc Hs].
  cbn [tag_items]. destruct skip as [|k]; [|now apply IH].
  destruct (_HTML_TAG_REGEX_match (String c s)) as [[m len]|] eqn:Hm.
  - destruct (token_of_clean wl _ _ _ Hm) as [Ht Hch].
    destruct (IH Hs (pred len)) as [IH1 IH2].
    rewrite tokens_app, chars_in_app, Hch, IH2. split; [|reflexivity].
    apply Forall_app. now split.
  - destruct (IH Hs 0) as [IH1 IH2]. simpl. rewrite Hc, IH2. now split.
Qed.

(** ** Brackets *)

Lemma escape_bracket_no_bracket (s : string) :
  all_chars no_bracket (escape_bracket s) = true.
Proof.
  induction s as [|c s IH]; simpl; [reflexivity|].
  destruct (Ascii.eqb c "[") eqn:Hc; simpl; [exact IH|].
  unfold no_bracket at 1. now rewrite Hc, IH.
Qed.

Lemma escape_bracket_id (s : string) :
  all_chars no_bracket s = true -> escape_bracket s = s.
Proof.
  induction s as [|c s IH]; simpl; [reflexivity|].
  rewrite andb_true_iff. unfold no_bracket at 1. intros [Hc Hs].
  apply negb_true_iff in Hc. now rewrite Hc, (IH Hs).
Qed.

(** ** Normalized items *)

Lemma norm_items_tokens (items : list item) :
  tokens (norm_items items) = tokens items.
Proof.
  induction items as [|[c|t] items IH]; cbn [norm_items tokens].
  - reflexivity.
  - rewrite tokens_app, IH.
    assert (H : forall s, tokens (chars s) = []) by (induction s; auto).
    now rewrite H.
  - now rewrite IH.
Qed.

Lemma norm_items_safe (items : list item) :
  chars_in no_bracket items = true ->
  chars_in safe_char (norm_items items) = true.
Proof.
  induction items as [|[c|t] items IH]; cbn [norm_items chars_in];
    [reflexivity| |exact IH].
  rewrite andb_true_iff. intros [Hc Hi].
  now rewrite chars_in_app, chars_in_chars, (normalize_char_safe c Hc), (IH Hi).
Qed.

Lemma norm_items_id (items : list item) :
  chars_in normal_char items = true -> norm_items items = items.
Proof.
  induction items as [|[c|t] items IH]; cbn [norm_items chars_in];
    [reflexivity| |intros H; now rewrite (IH H)].
  rewrite andb_true_iff. intros [Hc Hi].
  now rewrite (normalize_normal_char c Hc), (IH Hi).
Qed.

Lemma chars_in_impl (p q : ascii -> bool) (items : list item) :
  (forall c, p c = true -> q c = true) ->
  chars_in p items = true -> chars_in q items = true.
Proof.
  intros Hpq. induction items as [|[c|t] items IH]; simpl; [reflexivity| |exact IH].
  rewrite !andb_true_iff. intros [H1 H2]. split; auto.
Qed.

(** ** Scanning a text that the filter wrote *)

Lemma named_match_clean (slash name rest : string) :
  valid_name name = true ->
  named_tag_match slash (name ++ ">" ++ rest)
  = Some ({| group0 := "<" ++ slash ++ name ++ ">"; group1 := Some name |},
          String.length ("<" ++ slash ++ name ++ ">")).
Proof.
  intros Hv. pose proof (valid_all_name_chars name Hv) as Hall.
  unfold named_tag_match. destruct name as [|c r]; [discriminate Hv|].
  cbn [append]. simpl in Hv. apply andb_true_iff in Hv as [Hc Hr].
  rewrite Hc.
  change (String c (r ++ String ">" rest)) with (String c r ++ String ">" rest).
  rewrite (span_all is_name_char (String c r) (String ">" rest) Hall eq_refl).
  reflexivity.
Qed.

Lemma match_clean_open (name rest : string) :
  valid_name name = true ->
  _HTML_TAG_REGEX_match (("<" ++ name ++ ">") ++ rest)
  = Some ({| group0 := "<" ++ name ++ ">"; group1 := Some name |},
          String.length ("<" ++ name ++ ">")).
Proof.
  intros Hv. rewrite !append_assoc. cbn [append _HTML_TAG_REGEX_match Ascii.eqb Bool.eqb].
  destruct name as [|c r] eqn:E; [discriminate Hv|].
  cbn [append]. 
  assert (Hc : is_alpha c = true).
  { simpl in Hv. now apply andb_true_iff in Hv as [Hc _]. }
  rewrite (alpha_not_bang c Hc), (alpha_not_slash c Hc).
  change (String c (r ++ String ">" rest)) with (String c r ++ ">" ++ rest).
  rewrite (named_match_clean "" (String c r) rest Hv). reflexivity.
Qed.

Lemma match_clean_close (name rest : string) :
  valid_name name = true ->
  _HTML_TAG_REGEX_match (("</" ++ name ++ ">") ++ rest)
  = Some ({| group0 := "</" ++ name ++ ">"; group1 := Some name |},
          String.length ("</" ++ name ++ ">")).
Proof.
  intros Hv. rewrite !append_assoc. cbn [append _HTML_TAG_REGEX_match Ascii.eqb Bool.eqb].
  change (name ++ String ">" rest) with (name ++ ">" ++ rest).
  rewrite (named_match_clean "/" name rest Hv). reflexivity.
Qed.

Lemma clean_name_parts (wl : list string) (name : string) :
  clean_name wl name = true ->
  valid_name name = true /\ lower name = name /\ mem name wl = true.
Proof.
  unfold clean_name. rewrite !andb_true_iff. intros [[H1 H2] H3].
  apply String.eqb_eq in H2. tauto.
Qed.

Lemma open_second (name : string) :
  valid_name name = true -> second_is_slash ("<" ++ name ++ ">") = false.
Proof.
  destruct name as [|c r]; [discriminate|]. simpl.
  rewrite andb_true_iff. intros [Hc _]. unfold second_is_slash. simpl.
  now apply alpha_not_slash.
Qed.

(** A clean token is matched whole, and kept as it is. *)
Lemma match_clean_token (wl : list string) (t rest : string) :
  clean_token wl t ->
  exists m, _HTML_TAG_REGEX_match (t ++ rest) = Some (m, String.length t)
            /\ token_of wl m = [Tok t]
            /\ tag_of_match m = [tag_of_token t].
Proof.
  intros [name Hn | name Hn];
    destruct (clean_name_parts wl name Hn) as [Hv [Hl Hm]].
  - eexists. split; [apply (match_clean_open name rest Hv)|].
    unfold token_of, tag_of_match, tag_of_token. cbn [group0 group1 option_map].
    rewrite Hl, Hm, (open_second name Hv). split; [reflexivity|].
    cbn [append tail fst].
    pose proof (span_all is_name_char name ">" (valid_all_name_chars name Hv) eq_refl) as Hs.
    cbn [append] in Hs. rewrite Hs. reflexivity.
  - eexists. split; [apply (match_clean_close name rest Hv)|].
    unfold token_of, tag_of_match, tag_of_token. cbn [group0 group1 option_map].
    rewrite Hl, Hm. split; [reflexivity|].
    change (second_is_slash ("</" ++ name ++ ">")) with true.
    cbn [append tail fst].
    pose proof (span_all is_name_char name ">" (valid_all_name_chars name Hv) eq_refl) as Hs.
    cbn [append] in Hs. rewrite Hs. reflexivity.
Qed.

Lemma clean_token_not_empty (wl : list string) (t : string) :
  clean_token wl t -> exists c r, t = String c r.
Proof. intros [name _|name _]; simpl; eauto. Qed.

Lemma scan_clean (wl : list string) (items : list item) :
  Forall (clean_item wl) items -> tag_items wl 0 (flat items) = items.
Proof.
  induction items as [|i items IH]; intros H; [reflexivity|].
  inversion H as [|? ? Hi Hrest]; subst. specialize (IH Hrest).
  destruct Hi as [c Hc | t Ht].
  - cbn [flat tag_items].
    rewrite (tag_match_needs_lt c _ (safe_no_lt c Hc)), IH. reflexivity.
  - cbn [flat].
    destruct (match_clean_token wl t (flat items) Ht) as [m [Hm [Htok _]]].
    destruct (clean_token_not_empty wl t Ht) as [c [r E]].
    subst t. cbn [append] in Hm |- *.
    cbn [tag_items]. rewrite Hm, Htok. cbn [String.length pred List.app].
    rewrite <- (Nat.add_0_r (String.length r)), tag_items_skip, IH.
    reflexivity.
Qed.

Lemma scan_tags_clean (wl : list string) (items : list item) :
  Forall (clean_item wl) items ->
  tags_of (flat items) = map tag_of_token (tokens items).
Proof.
  unfold tags_of.
  induction items as [|i items IH]; intros H; [reflexivity|].
  inversion H as [|? ? Hi Hrest]; subst. specialize (IH Hrest).
  destruct Hi as [c Hc | t Ht].
  - cbn [flat re_finditer tokens].
    rewrite (tag_match_needs_lt c _ (safe_no_lt c Hc)). exact IH.
  - cbn [flat tokens map].
    destruct (match_clean_token wl t (flat items) Ht) as [m [Hm [_ Htag]]].
    destruct (clean_token_not_empty wl t Ht) as [c [r E]].
    subst t. cbn [append] in Hm |- *.
    cbn [re_finditer]. rewrite Hm. cbn [String.length pred flat_map].
    rewrite <- (Nat.add_0_r (String.length r)), re_finditer_skip.
    rewrite Htag, IH. reflexivity.
Qed.

(** ** The text of the items *)

Lemma flat_app (a b : list item) : flat (a ++ b) = flat a ++ flat b.
Proof.
  induction a as [|[c|t] a IH]; simpl; [reflexivity|now rewrite IH|].
  now rewrite IH, append_assoc.
Qed.

Lemma flat_tokens (l : list string) : flat (map Tok l) = join l.
Proof. induction l as [|t l IH]; simpl; [reflexivity|now rewrite IH]. Qed.

Lemma tokens_map_Tok (l : list string) : tokens (map Tok l) = l.
Proof. induction l as [|t l IH]; simpl; [reflexivity|now rewrite IH]. Qed.

Lemma chars_in_map_Tok (p : ascii -> bool) (l : list string) :
  chars_in p (map Tok l) = true.
Proof. induction l as [|t l IH]; simpl; [reflexivity|exact IH]. Qed.

Lemma render_seq_tokens (items : list item) :
  forall more, render_seq (tokens items ++ more) items = flat items.
Proof.
  induction items as [|[c|t] items IH]; intros more; simpl;
    [reflexivity|now rewrite IH|now rewrite IH].
Qed.

Lemma render_seq_expand (items : list item) :
  forall lists,
    List.length lists = List.length (tokens items) ->
    render_seq (map join lists) items = flat (expand lists items).
Proof.
  induction items as [|[c|t] items IH]; intros lists Hl; simpl.
  - reflexivity.
  - now rewrite IH.
  - destruct lists as [|l ls]; [discriminate Hl|]. simpl in *.
    rewrite flat_app, flat_tokens, IH by lia. reflexivity.
Qed.

Lemma tokens_expand (items : list item) :
  forall lists,
    List.length lists = List.length (tokens items) ->
    tokens (expand lists items) = concat lists.
Proof.
  induction items as [|[c|t] items IH]; intros lists Hl; simpl.
  - destruct lists; [reflexivity|discriminate Hl].
  - now apply IH.
  - destruct lists as [|l ls]; [discriminate Hl|]. simpl in *.
    rewrite tokens_app, tokens_map_Tok, IH by lia. reflexivity.
Qed.

Lemma chars_in_expand (p : ascii -> bool) (items : list item) :
  forall lists, chars_in p (expand lists items) = chars_in p items.
Proof.
  induction items as [|[c|t] items IH]; intros lists; simpl.
  - reflexivity.
  - now rewrite IH.
  - destruct lists as [|l ls]; [apply IH|].
    now rewrite chars_in_app, chars_in_map_Tok, IH.
Qed.

Lemma balance_out_length (tags : list string) :
  forall open_tags,
    List.length (fst (balance_out open_tags tags)) = List.length tags.
Proof.
  induction tags as [|tag rest IH]; intros open_tags; [reflexivity|].
  cbn [balance_out]. destruct (second_is_slash tag).
  - destruct (pop_through tag open_tags) as [[popped remaining]|];
      simpl; now rewrite IH.
  - destruct (_HTML5_VOID_ELEMENTS_RE_match tag); simpl; now rewrite IH.
Qed.

(** The items are clean when their characters are safe and their tags
    clean. *)
Lemma clean_items_intro (wl : list string) (items : list item) :
  chars_in safe_char items = true ->
  Forall (clean_token wl) (tokens items) ->
  Forall (clean_item wl) items.
Proof.
  induction items as [|[c|t] items IH]; simpl; intros Hc Ht.
  - constructor.
  - apply andb_true_iff in Hc as [Hc Hi].
    constructor; [now constructor|now apply IH].
  - inversion Ht; subst. constructor; [now constructor|now apply IH].
Qed.

Lemma clean_items_elim (wl : list string) (items : list item) :
  Forall (clean_item wl) items ->
  chars_in safe_char items = true /\ Forall (clean_token wl) (tokens items).
Proof.
  induction 1 as [|i items Hi _ [IH1 IH2]]; [split; [reflexivity|constructor]|].
  destruct Hi as [c Hc|t Ht]; simpl.
  - rewrite Hc, IH1. now split.
  - split; [exact IH1|now constructor].
Qed.

(** ** The tags that balancing writes are clean *)

Lemma clean_opener (wl : list string) (t : string) :
  clean_token wl t -> second_is_slash t = false ->
  clean_token wl ("</" ++ tail t).
Proof.
  intros [name Hn|name Hn] Hs.
  - now apply clean_close.
  - discriminate Hs.
Qed.

Lemma balance_out_clean (wl : list string) (tags : list string) :
  forall open_tags,
    Forall (clean_token wl) tags ->
    Forall (clean_token wl) open_tags ->
    Forall (clean_token wl) (concat (fst (balance_out open_tags tags)))
    /\ Forall (clean_token wl) (snd (balance_out open_tags tags)).
Proof.
  induction tags as [|tag rest IH]; intros open_tags Ht Hs.
  - split; [constructor|exact Hs].
  - inversion Ht as [|? ? Htag Hrest]; subst.
    cbn [balance_out]. destruct (second_is_slash tag) eqn:Hsl.
    + destruct (pop_through tag open_tags) as [[popped remaining]|] eqn:Hp.
      * apply pop_through_split in Hp. subst open_tags.
        apply Forall_app in Hs as [Hpop Hrem].
        destruct (IH remaining Hrest Hrem) as [IH1 IH2].
        cbn [fst snd concat]. split; [|exact IH2].
        apply Forall_app. now split.
      * apply (IH open_tags Hrest Hs).
    + destruct (_HTML5_VOID_ELEMENTS_RE_match tag).
      * destruct (IH open_tags Hrest Hs) as [IH1 IH2].
        cbn [fst snd concat List.app]. split; [now constructor|exact IH2].
      * assert (Hs' : Forall (clean_token wl) (("</" ++ tail tag) :: open_tags)).
        { constructor; [now apply clean_opener|exact Hs]. }
        destruct (IH _ Hrest Hs') as [IH1 IH2].
        cbn [fst snd concat List.app]. split; [now constructor|exact IH2].
Qed.

Lemma clean_token_second (wl : list string) (t : string) :
  clean_token wl t -> String.get 1 t <> None.
Proof.
  intros [name Hn|name Hn]; [|discriminate].
  apply clean_name_parts in Hn as [Hv _].
  destruct name as [|c r]; [discriminate Hv|]. discriminate.
Qed.

Lemma clean_tokens_second (wl : list string) (l : list string) :
  Forall (clean_token wl) l -> Forall (fun t => String.get 1 t <> None) l.
Proof.
  intros H. eapply Forall_impl; [|exact H]. apply clean_token_second.
Qed.

Lemma clean_token_no_bracket (wl : list string) (t : string) :
  clean_token wl t -> all_chars no_bracket t = true.
Proof.
  intros [name Hn|name Hn]; apply clean_name_parts in Hn as [Hv _];
    apply valid_all_name_chars in Hv;
    apply (all_chars_impl _ no_bracket _ name_char_no_bracket) in Hv;
    cbn [append all_chars]; rewrite all_chars_append, Hv; reflexivity.
Qed.

Lemma flat_no_bracket (wl : list string) (items : list item) :
  Forall (clean_item wl) items -> all_chars no_bracket (flat items) = true.
Proof.
  induction 1 as [|i items Hi _ IH]; [reflexivity|].
  destruct Hi as [c Hc|t Ht]; simpl.
  - now rewrite (safe_no_bracket c Hc), IH.
  - now rewrite all_chars_append, (clean_token_no_bracket wl t Ht), IH.
Qed.

(** ** The output of the filter *)

Lemma input_items_clean (wl : list string) (value : pyvalue) :
  chars_in safe_char (input_items wl value) = true
  /\ Forall (clean_token wl) (tokens (input_items wl value)).
Proof.
  unfold input_items. rewrite norm_items_tokens.
  destruct (tag_items_clean wl no_bracket (escape_bracket (str value))
              (escape_bracket_no_bracket _) 0) as [H1 H2].
  split; [now apply norm_items_safe|exact H1].
Qed.

Lemma output_items_clean (wl : list string) (value : pyvalue) :
  Forall (clean_item wl) (output_items wl value).
Proof.
  destruct (input_items_clean wl value) as [Hc Ht].
  destruct (balance_out_clean wl _ [] Ht (Forall_nil _)) as [H1 H2].
  apply clean_items_intro; unfold output_items; cbn zeta.
  - now rewrite chars_in_app, chars_in_expand, chars_in_map_Tok, Hc.
  - rewrite tokens_app, tokens_map_Tok, tokens_expand
      by apply balance_out_length.
    apply Forall_app. now split.
Qed.

Lemma output_items_tokens (wl : list string) (value : pyvalue) :
  let r := balance_out [] (tokens (input_items wl value)) in
  tokens (output_items wl value) = (concat (fst r) ++ snd r)%list.
Proof.
  cbn zeta. unfold output_items. cbn zeta.
  rewrite tokens_app, tokens_map_Tok, tokens_expand
    by apply balance_out_length.
  reflexivity.
Qed.

Lemma strip_whitelist_output (w : string) (wl : list string)
    (value : pyvalue) :
  _strip_html_tags value (w :: wl)
  = Ok (flat (output_items (w :: wl) value)).
Proof.
  destruct (input_items_clean (w :: wl) value) as [Hc Ht].
  unfold _strip_html_tags. rewrite tag_sub_items. cbn [List.length List.app].
  rewrite normalize_render_ph. fold (input_items (w :: wl) value).
  rewrite <- (norm_items_tokens
                (tag_items (w :: wl) 0 (escape_bracket (str value)))).
  fold (input_items (w :: wl) value).
  unfold _balance_tags.
  rewrite (balance_loop_out _ [] (clean_tokens_second _ _ Ht)).
  cbn [bind fst snd].
  pose proof (marker_sub (input_items (w :: wl) value) []
                (map join (fst (balance_out [] (tokens (input_items (w :: wl) value)))))) as Hm.
  cbn [List.app List.length] in Hm. rewrite Hm.
  - cbn [bind]. rewrite render_seq_expand by apply balance_out_length.
    unfold output_items. cbn zeta. now rewrite flat_app, flat_tokens.
  - apply (chars_in_impl safe_char); [exact safe_no_bracket|exact Hc].
  - rewrite length_map, balance_out_length. lia.
Qed.

Lemma expand_singletons (items : list item) :
  forall more, expand (singletons (tokens items ++ more)) items = items.
Proof.
  induction items as [|[c|t] items IH]; intros more; simpl;
    [reflexivity|now rewrite IH|now rewrite IH].
Qed.

(** The items of the output are those of the output read again. *)
Lemma output_items_fixed (w : string) (wl : list string) (value : pyvalue) :
  output_items (w :: wl) (PyStr (flat (output_items (w :: wl) value)))
  = output_items (w :: wl) value.
Proof.
  pose proof (output_items_clean (w :: wl) value) as Hclean.
  destruct (clean_items_elim _ _ Hclean) as [Hc _].
  set (E := output_items (w :: wl) value) in *.
  assert (Hin : input_items (w :: wl) (PyStr (flat E)) = E).
  { unfold input_items. cbn [str].
    rewrite (escape_bracket_id _ (flat_no_bracket _ _ Hclean)).
    rewrite (scan_clean _ _ Hclean). apply norm_items_id.
    apply (chars_in_impl safe_char); [exact safe_normal|exact Hc]. }
  unfold output_items at 1. cbn zeta. rewrite Hin.
  subst E. rewrite output_items_tokens. cbn zeta.
  rewrite rebalance_all. cbn [fst snd map].
  rewrite <- output_items_tokens.
  rewrite app_nil_r, <- (app_nil_r (tokens _)). apply expand_singletons.
Qed.

(** C5: applying the filter to its own output, with the same whitelist,
    returns that output. *)
Theorem strip_html_tags_idempotent (value : string) (wl : list string) :
  exists out,
    _strip_html_tags (PyStr value) wl = Ok out
    /\ _strip_html_tags (PyStr out) wl = Ok out.
Proof.
  destruct wl as [|w wl].
  - apply strip_no_whitelist_idempotent.
  - exists (flat (output_items (w :: wl) (PyStr value))).
    rewrite !strip_whitelist_output, output_items_fixed. now split.
Qed.

(** ** The output is well nested *)

Lemma tag_of_token_open (name : string) :
  valid_name name = true -> tag_of_token ("<" ++ name ++ ">") = (false, name).
Proof.
  intros Hv. unfold tag_of_token. rewrite (open_second name Hv).
  cbn [append tail].
  pose proof (span_all is_name_char name ">" (valid_all_name_chars name Hv)
                eq_refl) as Hs.
  cbn [append] in Hs. now rewrite Hs.
Qed.

Lemma tag_of_token_close (name : string) :
  valid_name name = true -> tag_of_token ("</" ++ name ++ ">") = (true, name).
Proof.
  intros Hv. unfold tag_of_token.
  change (second_is_slash ("</" ++ name ++ ">")) with true.
  cbn [append tail].
  pose proof (span_all is_name_char name ">" (valid_all_name_chars name Hv)
                eq_refl) as Hs.
  cbn [append] in Hs. now rewrite Hs.
Qed.

Lemma pair_eq_inv {A B : Type} (p : A * B) (a : A) (b : B) :
  fst p = a -> snd p = b -> p = (a, b).
Proof. destruct p; simpl; congruence. Qed.

(** Tags that balancing leaves as they are, and closes all, are well
    nested. *)
Lemma unchanged_is_nested (wl : list string) (tags : list string) :
  forall open_tags,
    Forall (clean_token wl) tags ->
    balance_out open_tags tags = (singletons tags, []) ->
    well_nested void_by_pattern (stack_names open_tags)
      (map tag_of_token tags) = true.
Proof.
  induction tags as [|t tags IH]; intros open_tags Ht H.
  - simpl in H. injection H as ->. reflexivity.
  - inversion Ht as [|? ? Hct Hrest]; subst.
    cbn [map]. cbn [balance_out] in H.
    destruct Hct as [name Hn|name Hn];
      destruct (clean_name_parts wl name Hn) as [Hv _].
    + rewrite (open_second name Hv) in H.
      rewrite (tag_of_token_open name Hv). cbn [well_nested].
      unfold void_by_pattern at 1.
      destruct (_HTML5_VOID_ELEMENTS_RE_match ("<" ++ name ++ ">")).
      * apply IH; [exact Hrest|].
        injection H as H1 H2. now apply pair_eq_inv.
      * injection H as H1 H2.
        specialize (IH (("</" ++ tail ("<" ++ name ++ ">")) :: open_tags)
                      Hrest (pair_eq_inv _ _ _ H1 H2)).
        cbn [stack_names map append tail] in IH.
        pose proof (tag_of_token_close name Hv) as Hc. cbn [append] in Hc.
        rewrite Hc in IH. exact IH.
    + change (second_is_slash ("</" ++ name ++ ">")) with true in H.
      cbn iota in H. rewrite (tag_of_token_close name Hv). cbn [well_nested].
      destruct (pop_through ("</" ++ name ++ ">") open_tags)
        as [[popped remaining]|] eqn:Hp; [|discriminate H].
      injection H as Hpop H1 H2. subst popped.
      apply pop_through_split in Hp. subst open_tags.
      cbn [stack_names List.app map].
      pose proof (tag_of_token_close name Hv) as Hc. cbn [append] in Hc.
      rewrite Hc. cbn [snd]. rewrite String.eqb_refl. cbn [andb].
      apply (IH remaining); [exact Hrest|now apply pair_eq_inv].
Qed.

(** X1: with a whitelist, the filter returns a text whose tags are well
    nested, an opening tag that matches [_HTML5_VOID_ELEMENTS_RE] counting
    as void. *)
Lemma strip_output_well_nested (value : pyvalue) (w : string)
    (wl : list string) :
  exists out,
    _strip_html_tags value (w :: wl) = Ok out
    /\ well_nested void_by_pattern [] (tags_of out) = true.
Proof.
  exists (flat (output_items (w :: wl) value)).
  split; [apply strip_whitelist_output|].
  pose proof (output_items_clean (w :: wl) value) as Hclean.
  rewrite (scan_tags_clean _ _ Hclean).
  destruct (clean_items_elim _ _ Hclean) as [_ Ht].
  apply (unchanged_is_nested (w :: wl) _ [] Ht).
  rewrite output_items_tokens. cbn zeta. apply rebalance_all.
Qed.

(** C1 fails on a custom element whose name starts with the name of a void
    element and a hyphen: [_HTML5_VOID_ELEMENTS_RE] matches its opening tag,
    which is kept and never closed, and its own closing tag is dropped. *)
Theorem custom_element_left_open :
  _strip_html_tags (PyStr "<input-field>name</input-field>") ["input-field"]
  = Ok "<input-field>name"
  /\ tags_of "<input-field>name" = [(false, "input-field")]
  /\ is_void_element "input-field" = false
  /\ openers_closed (tags_of "<input-field>name") = false.
Proof.
  repeat split; vm_compute; reflexivity.
Qed.

(** * Further properties *)

(** ** The whitelist filter *)

Lemma clean_token_tag (wl : list string) (t : string) :
  clean_token wl t -> mem (snd (tag_of_token t)) wl = true.
Proof.
  intros [name Hn|name Hn];
    destruct (clean_name_parts wl name Hn) as [Hv [_ Hm]].
  - now rewrite (tag_of_token_open name Hv).
  - now rewrite (tag_of_token_close name Hv).
Qed.

(** X2: with a whitelist the filter returns a text made of characters
    other than NUL, the quotes, the angle brackets and the opening square
    bracket, and of tags [<name>] or [</name>] without attributes whose
    name is on the whitelist, in lower case; the tags that the tag pattern
    finds in the output all bear a whitelisted name. *)
Theorem strip_output_clean (value : pyvalue) (w : string) (wl : list string) :
  exists items,
    _strip_html_tags value (w :: wl) = Ok (flat items)
    /\ Forall (clean_item (w :: wl)) items
    /\ Forall (fun t => mem (snd t) (w :: wl) = true) (tags_of (flat items)).
Proof.
  exists (output_items (w :: wl) value).
  pose proof (output_items_clean (w :: wl) value) as Hclean.
  split; [apply strip_whitelist_output|]. split; [exact Hclean|].
  rewrite (scan_tags_clean _ _ Hclean).
  destruct (clean_items_elim _ _ Hclean) as [_ Ht].
  apply Forall_map. eapply Forall_impl; [|exact Ht].
  intros t. apply clean_token_tag.
Qed.

Lemma tags_of_no_lt (s : string) :
  all_chars no_lt s = true -> tags_of s = [].
Proof.
  unfold tags_of. induction s as [|c s IH]; [reflexivity|].
  cbn [all_chars re_finditer]. rewrite andb_true_iff. intros [Hc Hs].
  rewrite (tag_match_needs_lt c s Hc). now apply IH.
Qed.

(** X3: without a whitelist the filter returns, for every string, a text
    that holds no [<] at all, hence no tag. *)
Theorem strip_no_whitelist_no_lt (s : string) :
  exists out,
    _strip_html_tags (PyStr s) [] = Ok out
    /\ all_chars no_lt out = true
    /\ tags_of out = [].
Proof.
  exists (escape_lt (remove_tags s)).
  pose proof (escape_lt_no_lt (remove_tags s)) as H.
  split; [reflexivity|]. split; [exact H|now apply tags_of_no_lt].
Qed.

Lemma flat_chars (s : string) : flat (chars s) = s.
Proof. induction s as [|c s IH]; simpl; [reflexivity|now rewrite IH]. Qed.

Lemma tokens_chars (s : string) : tokens (chars s) = [].
Proof. induction s as [|c s IH]; simpl; [reflexivity|exact IH]. Qed.

Lemma expand_chars (s : string) (lists : list (list string)) :
  expand lists (chars s) = chars s.
Proof. induction s as [|c s IH]; simpl; [reflexivity|now rewrite IH]. Qed.

Lemma chars_clean (wl : list string) (s : string) :
  all_chars safe_char s = true -> Forall (clean_item wl) (chars s).
Proof.
  induction s as [|c s IH]; simpl; [constructor|].
  rewrite andb_true_iff. intros [Hc Hs].
  constructor; [now constructor|now apply IH].
Qed.

(** X4: a text without NUL, quotes, angle brackets and opening square
    bracket goes through the filter unchanged, whatever the whitelist. *)
Theorem strip_plain_text (s w : string) (wl : list string) :
  all_chars safe_char s = true ->
  _strip_html_tags (PyStr s) (w :: wl) = Ok s.
Proof.
  intros Hs. rewrite strip_whitelist_output.
  pose proof (chars_clean (w :: wl) s Hs) as Hclean.
  assert (Hin : input_items (w :: wl) (PyStr s) = chars s).
  { unfold input_items. cbn [str]. rewrite <- (flat_chars s) at 1.
    rewrite (escape_bracket_id _ (flat_no_bracket _ _ Hclean)).
    rewrite (scan_clean _ _ Hclean). apply norm_items_id.
    rewrite chars_in_chars.
    apply (all_chars_impl safe_char); [exact safe_normal|exact Hs]. }
  unfold output_items. cbn zeta. rewrite Hin, tokens_chars.
  cbn [balance_out fst snd map]. rewrite expand_chars, app_nil_r.
  now rewrite flat_chars.
Qed.

Lemma strip_plain_text_witness :
  _strip_html_tags (PyStr "a & b = c; (d)") ["b"; "i"]
  = Ok "a & b = c; (d)".
Proof.
  apply (strip_plain_text "a & b = c; (d)" "b" ["i"]). reflexivity.
Defined.

(** ** More on [_balance_tags] *)

Lemma balance_loop_stack (P : string -> Prop) (tags : list string) :
  (forall t, In t tags -> String.get 1 t <> Some "/"%char ->
             _HTML5_VOID_ELEMENTS_RE_match t = false ->
             P ("</" ++ tail t)) ->
  forall open_tags tags' stack,
    Forall P open_tags ->
    balance_loop open_tags tags = Ok (tags', stack) ->
    Forall P stack.
Proof.
  induction tags as [|tag rest IH]; intros HP open_tags tags' stack Hs H.
  - simpl in H. injection H as _ <-. exact Hs.
  - assert (HP' : forall t, In t rest -> String.get 1 t <> Some "/"%char ->
                    _HTML5_VOID_ELEMENTS_RE_match t = false ->
                    P ("</" ++ tail t)).
    { intros t Ht. apply HP. now right. }
    specialize (IH HP'). cbn [balance_loop] in H.
    destruct (String.get 1 tag) as [c|] eqn:Hg; [|discriminate H].
    destruct (Ascii.eqb c "/") eqn:Hc.
    + destruct (pop_through tag open_tags) as [[popped remaining]|] eqn:Hp.
      * apply pop_through_split in Hp. subst open_tags.
        apply Forall_app in Hs as [_ Hrem].
        destruct (balance_loop remaining rest) as [[t s]|e] eqn:Hb;
          [|discriminate H].
        injection H as _ <-. exact (IH _ _ _ Hrem Hb).
      * destruct (balance_loop open_tags rest) as [[t s]|e] eqn:Hb;
          [|discriminate H].
        injection H as _ <-. exact (IH _ _ _ Hs Hb).
    + assert (Hne : String.get 1 tag <> Some "/"%char).
      { rewrite Hg. intros E. injection E as ->. discriminate Hc. }
      destruct (_HTML5_VOID_ELEMENTS_RE_match tag) eqn:Hv.
      * destruct (balance_loop open_tags rest) as [[t s]|e] eqn:Hb;
          [|discriminate H].
        injection H as _ <-. exact (IH _ _ _ Hs Hb).
      * destruct (balance_loop (("</" ++ tail tag) :: open_tags) rest)
          as [[t s]|e] eqn:Hb; [|discriminate H].
        injection H as _ <-. refine (IH _ _ _ _ Hb).
        constructor; [|exact Hs]. apply HP; [now left|exact Hne|exact Hv].
Qed.

(** X5: the string of closing tags that [_balance_tags] returns is made of
    one closing tag [</name>] per opening tag [<name>] of the list that is
    still open, and none of them closes a tag that the void pattern
    matches. *)
Theorem balance_suffix_not_void (tags tags' : list string) (suffix : string) :
  _balance_tags tags = Ok (tags', suffix) ->
  exists open_tags,
    suffix = join open_tags
    /\ Forall (fun c => exists t,
                 In t tags /\ c = "</" ++ tail t
                 /\ String.get 1 t <> Some "/"%char
                 /\ _HTML5_VOID_ELEMENTS_RE_match t = false) open_tags.
Proof.
  unfold _balance_tags. intros H.
  destruct (balance_loop [] tags) as [[t s]|e] eqn:Hb; [|discriminate H].
  injection H as _ <-. exists s. split; [reflexivity|].
  apply (balance_loop_stack _ tags) with (open_tags := []) (tags' := t);
    [|constructor|exact Hb].
  intros t0 Hin Hg Hv. exists t0. tauto.
Qed.

Lemma balance_suffix_not_void_witness :
  exists open_tags,
    "</ul>" = join open_tags
    /\ Forall (fun c => exists t,
                 In t ["<ul>"; "<br>"; "<li>"; "</li>"]
                 /\ c = "</" ++ tail t
                 /\ String.get 1 t <> Some "/"%char
                 /\ _HTML5_VOID_ELEMENTS_RE_match t = false) open_tags.
Proof.
  apply (balance_suffix_not_void ["<ul>"; "<br>"; "<li>"; "</li>"]
           ["<ul>"; "<br>"; "<li>"; "</li>"] "</ul>").
  reflexivity.
Defined.

Lemma balance_loop_openers (tags : list string) :
  Forall opens tags ->
  forall open_tags,
    balance_loop open_tags tags
    = Ok (tags, (List.rev (map closing_tag_of tags) ++ open_tags)%list).
Proof.
  induction 1 as [|tag rest [[c [Hg Hc]] Hv] _ IH]; intros open_tags;
    [reflexivity|].
  cbn [balance_loop]. rewrite Hg, Hc, Hv, IH. cbn [bind fst snd map List.rev].
  rewrite <- app_assoc. reflexivity.
Qed.

(** X6: when the list holds opening tags only, none of them void, the
    list stays as it is and the returned string closes them all, the last
    opened first. *)
Theorem balance_closes_in_reverse (tags : list string) :
  Forall opens tags ->
  _balance_tags tags = Ok (tags, join (List.rev (map closing_tag_of tags))).
Proof.
  intros H. unfold _balance_tags. rewrite (balance_loop_openers tags H []).
  cbn [bind fst snd]. now rewrite app_nil_r.
Qed.

Lemma balance_closes_in_reverse_witness :
  _balance_tags ["<table>"; "<tr>"; "<td>"]
  = Ok (["<table>"; "<tr>"; "<td>"], "</td></tr></table>").
Proof.
  apply (balance_closes_in_reverse ["<table>"; "<tr>"; "<td>"]).
  repeat constructor; try (eexists; split; reflexivity); reflexivity.
Defined.

(** ** [clean_html] on a value that is not of kind HTML *)

Lemma mem_In (x : string) (l : list string) : mem x l = true <-> In x l.
Proof.
  unfold mem. rewrite existsb_exists. split.
  - intros [y [Hy E]]. apply String.eqb_eq in E. now subst y.
  - intros H. exists x. split; [exact H|apply String.eqb_refl].
Qed.

(** X7: for a value that is not of kind HTML, and unless both whitelists
    are empty, [clean_html] returns a [SanitizedHtml] with the direction of
    the value, whose content is the filtered text: each of its tags bears a
    name of [safe_tags] or of the default whitelist, and its tags are well
    nested when an opening tag that [_HTML5_VOID_ELEMENTS_RE] matches
    counts as void.  The pattern ends at a word boundary, not at the end
    of the name, so it takes in a tag such as [<br-x>], which the filter
    leaves without a closing tag; nesting in the sense of the HTML void
    elements alone is not stated. *)
Theorem clean_html_filters (_SAFE_TAG_WHITELIST : list string)
    (value : pyvalue) (safe_tags : list string) :
  is_content_kind value HTML = false ->
  safe_tags <> [] \/ _SAFE_TAG_WHITELIST <> [] ->
  exists html,
    clean_html _SAFE_TAG_WHITELIST value safe_tags
    = Ok {| cls := SanitizedHtml; content := html;
            content_dir := get_content_dir value |}
    /\ well_nested void_by_pattern [] (tags_of html) = true
    /\ Forall (fun t => In (snd t) safe_tags
                        \/ In (snd t) _SAFE_TAG_WHITELIST) (tags_of html).
Proof.
  intros Hk Hne. unfold clean_html, _get_content_of_kind. rewrite Hk.
  set (merged := match safe_tags with
                 | [] => _SAFE_TAG_WHITELIST
                 | _ :: _ => nodup string_dec (safe_tags ++ _SAFE_TAG_WHITELIST)
                 end).
  assert (Hsub : forall x, In x merged ->
                           In x safe_tags \/ In x _SAFE_TAG_WHITELIST).
  { intros x. subst merged. destruct safe_tags as [|s0 st]; [now right|].
    rewrite nodup_In, in_app_iff. tauto. }
  assert (Hcons : exists w wl, merged = w :: wl).
  { destruct merged as [|w wl] eqn:E; [|eauto]. exfalso. subst merged.
    destruct safe_tags as [|s0 st].
    - destruct Hne as [H|H]; now apply H.
    - assert (Hin : In s0 (nodup string_dec ((s0 :: st) ++ _SAFE_TAG_WHITELIST)))
        by (apply nodup_In; now left).
      rewrite E in Hin. exact Hin. }
  destruct Hcons as [w [wl E]]. rewrite E in *.
  pose proof (output_items_clean (w :: wl) value) as Hclean.
  exists (flat (output_items (w :: wl) value)).
  rewrite strip_whitelist_output. split; [reflexivity|].
  rewrite (scan_tags_clean _ _ Hclean).
  destruct (clean_items_elim _ _ Hclean) as [_ Ht]. split.
  - apply (unchanged_is_nested (w :: wl) _ [] Ht).
    rewrite output_items_tokens. cbn zeta. apply rebalance_all.
  - apply Forall_map. eapply Forall_impl; [|exact Ht].
    intros t Hc. apply Hsub. apply mem_In. now apply clean_token_tag.
Qed.

Lemma clean_html_filters_witness :
  exists html,
    clean_html ["b"; "i"] (PyStr "<ul><li>a<script>") ["ul"; "li"]
    = Ok {| cls := SanitizedHtml; content := html; content_dir := None |}
    /\ well_nested void_by_pattern [] (tags_of html) = true
    /\ Forall (fun t => In (snd t) ["ul"; "li"] \/ In (snd t) ["b"; "i"])
         (tags_of html).
Proof.
  apply (clean_html_filters ["b"; "i"] (PyStr "<ul><li>a<script>")
           ["ul"; "li"]).
  - reflexivity.
  - left. discriminate.
Defined.

(** ** Substitution, character by character *)

(** When the replacements and the characters outside the matches are in a
    class, the whole result is. *)
Lemma re_sub_all_chars {M St : Type} (matcher : string -> option (M * nat))
    (handler : St -> M -> string * St) (p : ascii -> bool) :
  (forall st m, all_chars p (fst (handler st m)) = true) ->
  (forall c s, matcher (String c s) = None -> p c = true) ->
  forall s skip st,
    all_chars p (fst (re_sub matcher handler skip st s)) = true.
Proof.
  intros Hh Hm. induction s as [|c s IH]; intros skip st; [reflexivity|].
  cbn [re_sub]. destruct skip as [|k]; [|apply IH].
  destruct (matcher (String c s)) as [[m len]|] eqn:E.
  - pose proof (Hh st m) as H1. destruct (handler st m) as [r st1].
    pose proof (IH (pred len) st1) as H2.
    destruct (re_sub matcher handler (pred len) st1 s) as [out st2].
    cbn [fst] in *. now rewrite all_chars_append, H1, H2.
  - pose proof (IH 0 st) as H2.
    destruct (re_sub matcher handler 0 st s) as [out st1].
    cbn [fst all_chars] in *. now rewrite (Hm c s E), H2.
Qed.

(** Where the pattern matches nowhere the text stays. *)
Lemma re_sub_unmatched {M St : Type} (matcher : string -> option (M * nat))
    (handler : St -> M -> string * St) (p : ascii -> bool) :
  (forall c s, p c = true -> matcher (String c s) = None) ->
  forall s st,
    all_chars p s = true -> re_sub matcher handler 0 st s = (s, st).
Proof.
  intros Hm. induction s as [|c s IH]; intros st; [reflexivity|].
  cbn [all_chars re_sub]. rewrite andb_true_iff. intros [Hc Hs].
  now rewrite (Hm c s Hc), (IH st Hs).
Qed.

(** ** [change_newline_to_br] *)

Lemma newline_match_none (c : ascii) (s : string) :
  _NEWLINE_RE_match (String c s) = None -> no_newline c = true.
Proof.
  unfold _NEWLINE_RE_match, no_newline.
  destruct (Ascii.eqb c CR).
  - destruct s as [|d s']; [discriminate|]. destruct (Ascii.eqb d LF); discriminate.
  - destruct (Ascii.eqb c LF); [discriminate|reflexivity].
Qed.

Lemma newline_match_needs (c : ascii) (s : string) :
  no_newline c = true -> _NEWLINE_RE_match (String c s) = None.
Proof.
  unfold _NEWLINE_RE_match, no_newline. rewrite negb_true_iff, orb_false_iff.
  intros [-> ->]. reflexivity.
Qed.

Lemma newline_to_br_no_newline (s : string) :
  all_chars no_newline (newline_to_br s) = true.
Proof.
  unfold newline_to_br. apply re_sub_all_chars.
  - reflexivity.
  - exact newline_match_none.
Qed.

(** X8: [change_newline_to_br] never fails; its result holds no carriage
    return and no line feed, is the text itself when that had none, and for
    a value of kind HTML is a [SanitizedHtml] of the same direction. *)
Theorem change_newline_to_br_result (value : pyvalue) :
  change_newline_to_br value
  = Ok (if is_content_kind value HTML
        then PySanitized {| cls := SanitizedHtml;
                            content := newline_to_br (str value);
                            content_dir := get_content_dir value |}
        else PyStr (newline_to_br (str value)))
  /\ all_chars no_newline (newline_to_br (str value)) = true
  /\ (all_chars no_newline (str value) = true ->
      newline_to_br (str value) = str value).
Proof.
  split; [|split].
  - unfold change_newline_to_br, _get_content_of_kind.
    destruct (is_content_kind value HTML) eqn:Hk; [|reflexivity].
    destruct value as [|s|v|s]; try discriminate Hk. reflexivity.
  - apply newline_to_br_no_newline.
  - intros H. unfold newline_to_br.
    now rewrite (re_sub_unmatched _ _ no_newline newline_match_needs _ tt H).
Qed.

Lemma change_newline_to_br_result_witness :
  newline_to_br (str (PyStr "one line")) = str (PyStr "one line").
Proof.
  apply (proj2 (proj2 (change_newline_to_br_result (PyStr "one line")))).
  reflexivity.
Defined.

(** ** [filter_normalize_refresh_uri] *)

Lemma escape_semicolon_none (s : string) :
  all_chars no_semicolon (escape_semicolon s) = true.
Proof.
  induction s as [|c s IH]; [reflexivity|]. simpl.
  destruct (Ascii.eqb c ";") eqn:E; simpl; [exact IH|].
  unfold no_semicolon at 1. now rewrite E, IH.
Qed.

(** X9: whatever the two helpers return and whatever the value, the result
    of [filter_normalize_refresh_uri] holds no semicolon. *)
Theorem refresh_uri_no_semicolon (normalize_uri_helper : string -> string)
    (filter_normalize_uri_helper : pyvalue -> string) (value : pyvalue) :
  all_chars no_semicolon
    (filter_normalize_refresh_uri normalize_uri_helper
       filter_normalize_uri_helper value) = true.
Proof. apply escape_semicolon_none. Qed.

(** ** [filter_number] *)

Lemma span_append (p : ascii -> bool) (s : string) :
  s = fst (span p s) ++ snd (span p s).
Proof.
  induction s as [|c s IH]; [reflexivity|]. simpl.
  destruct (p c); [|reflexivity].
  destruct (span p s) as [a b]. simpl in *. now rewrite <- IH.
Qed.

Lemma before_final_newline_chars (p : ascii -> bool) (s : string) :
  p LF = true ->
  all_chars p (before_final_newline s) = true -> all_chars p s = true.
Proof.
  intros HLF. induction s as [|c s IH]; [reflexivity|].
  cbn [before_final_newline]. destruct s as [|d s'].
  - destruct (Ascii.eqb c LF) eqn:E; [|trivial].
    apply Ascii.eqb_eq in E. subst c. intros _. simpl. now rewrite HLF.
  - change (before_final_newline (String c (String d s')))
      with (String c (before_final_newline (String d s'))).
    change (all_chars p (String c (String d s')))
      with (p c && all_chars p (String d s')).
    cbn [all_chars]. rewrite !andb_true_iff. intros [Hc H].
    split; [exact Hc|]. apply andb_true_iff. now apply IH.
Qed.

Lemma digit_number_char (c : ascii) :
  is_digit c = true -> number_char c = true.
Proof. unfold number_char. now intros ->. Qed.

Lemma number_match_chars (s : string) :
  _NUMBER_RE_match s = true -> all_chars number_char s = true.
Proof.
  unfold _NUMBER_RE_match. intros H.
  apply before_final_newline_chars; [reflexivity|].
  rewrite (span_append is_digit (before_final_newline s)).
  pose proof (span_fst_all is_digit (before_final_newline s)) as Hd.
  destruct (span is_digit (before_final_newline s)) as [digits rest].
  cbn [fst snd] in *. rewrite all_chars_append.
  rewrite (all_chars_impl _ _ _ digit_number_char Hd). cbn [andb].
  destruct rest as [|c fraction]; [reflexivity|].
  apply andb_true_iff in H as [Hc Hf]. apply Ascii.eqb_eq in Hc. subst c.
  assert (Hf' : all_chars is_digit fraction = true)
    by (destruct fraction; [discriminate Hf|exact Hf]).
  cbn [all_chars]. rewrite (all_chars_impl _ _ _ digit_number_char Hf').
  reflexivity.
Qed.

(** X10: on a value whose string form lies within U+0000..U+00FF,
    [filter_number] returns either the innocuous output or the string form
    of the value, unchanged, and then this holds nothing but the digits
    [0] to [9], dots and line feeds.  The range is that of [string]: on it
    [\d] is [0-9].  Beyond it [\d] accepts the other decimal digits of
    Unicode as well, and the statement says nothing of such values. *)
Theorem filter_number_safe (value : pyvalue) :
  filter_number value = _INNOCUOUS_OUTPUT
  \/ (filter_number value = str value
      /\ all_chars number_char (str value) = true).
Proof.
  unfold filter_number.
  destruct (_NUMBER_RE_match (str value)) eqn:H; [right|now left].
  split; [reflexivity|now apply number_match_chars].
Qed.

(** ** [filter_html_script_phrasing_data] *)

Lemma ascii_to_lower_fold (c : ascii) : ascii_to_lower c = fold_case_char c.
Proof. by_cases_on c. Qed.

Lemma prefix_matches_past_end (needle s : string) :
  forall rest,
    strip_prefix needle (fold_case s) = Some rest ->
    match_prefix_ignore_case_past_end needle s = true.
Proof.
  revert s. induction needle as [|n needle IH]; intros s rest H.
  - now destruct s.
  - destruct s as [|h s]; [reflexivity|]. simpl in H |- *.
    rewrite ascii_to_lower_fold.
    destruct (Ascii.eqb n (fold_case_char h)); [|discriminate H].
    exact (IH s rest H).
Qed.

Lemma fold_case_lt (c : ascii) :
  Ascii.eqb "<" (fold_case_char c) = Ascii.eqb c "<".
Proof. by_cases_on c. Qed.

Lemma contains_cons (needle : string) (c : ascii) (s : string) :
  contains needle (String c s)
  = match strip_prefix needle (String c s) with
    | Some _ => true
    | None => contains needle s
    end.
Proof. reflexivity. Qed.

Lemma no_hazard_no_needle (needle : string) (s : string) :
  (exists r, needle = String "<" r) ->
  (forall x, match_prefix_ignore_case_past_end needle x = true ->
             match_prefix_ignore_case_past_end "<!--" x
             || match_prefix_ignore_case_past_end "</script" x = true) ->
  phrasing_hazard s = false ->
  contains needle (fold_case s) = false.
Proof.
  intros [r ->] Hn. induction s as [|c s IH]; intros H; [reflexivity|].
  cbn [fold_case]. rewrite contains_cons.
  change (String (fold_case_char c) (fold_case s)) with (fold_case (String c s)).
  destruct (strip_prefix (String "<" r) (fold_case (String c s))) as [rest|] eqn:E.
  - exfalso. pose proof (prefix_matches_past_end _ _ _ E) as Hm.
    apply Hn in Hm. cbn [fold_case strip_prefix] in E.
    rewrite fold_case_lt in E. cbn [phrasing_hazard] in H.
    destruct (Ascii.eqb c "<"); [|discriminate E].
    rewrite Hm in H. discriminate H.
  - apply IH. cbn [phrasing_hazard] in H.
    destruct (Ascii.eqb c "<"); [|exact H].
    destruct (match_prefix_ignore_case_past_end "<!--" (String c s)
              || match_prefix_ignore_case_past_end "</script" (String c s));
      [discriminate H|exact H].
Qed.

(** X12: [filter_html_script_phrasing_data] returns either [zSoyz] or the
    string form of the value, unchanged, and then this holds, whatever the
    case of its letters, neither [<!--] nor [</script]. *)
Theorem phrasing_data_safe (value : pyvalue) :
  filter_html_script_phrasing_data value = "zSoyz"
  \/ (filter_html_script_phrasing_data value = str value
      /\ contains "<!--" (fold_case (str value)) = false
      /\ contains "</script" (fold_case (str value)) = false).
Proof.
  unfold filter_html_script_phrasing_data.
  destruct (phrasing_hazard (str value)) eqn:H; [now left|right].
  split; [reflexivity|]. split.
  - apply no_hazard_no_needle; [eauto| |exact H].
    intros x Hx. now rewrite Hx.
  - apply no_hazard_no_needle; [eauto| |exact H].
    intros x Hx. rewrite Hx. apply orb_true_r.
Qed.

Lemma hazard_at_open_end (s : string) : phrasing_hazard (s ++ "<") = true.
Proof.
  induction s as [|c s IH]; [reflexivity|].
  cbn [append phrasing_hazard]. rewrite IH.
  destruct (Ascii.eqb c "<"); [|reflexivity].
  now destruct (_ || _).
Qed.

(** X13: a text that ends with [<] is rejected: what follows it could
    complete a comment or a closing script tag. *)
Theorem phrasing_data_rejects_open_end (s : string) :
  filter_html_script_phrasing_data (PyStr (s ++ "<")) = "zSoyz".
Proof.
  unfold filter_html_script_phrasing_data. cbn [str].
  now rewrite hazard_at_open_end.
Qed.

(** [filter_number] lets the integers through. *)
Lemma before_final_newline_id (p : ascii -> bool) (s : string) :
  p LF = false -> all_chars p s = true -> before_final_newline s = s.
Proof.
  intros HLF. induction s as [|c s IH]; [reflexivity|].
  cbn [all_chars]. rewrite andb_true_iff. intros [Hc Hs].
  destruct s as [|d s'].
  - cbn [before_final_newline]. destruct (Ascii.eqb_spec c LF) as [->|_];
      [congruence|reflexivity].
  - change (before_final_newline (String c (String d s')))
      with (String c (before_final_newline (String d s'))).
    now rewrite (IH Hs).
Qed.

(** X11: a non-empty string of digits is a number for [filter_number], which
    returns it unchanged. *)
Theorem filter_number_accepts_digits (s : string) :
  s <> "" -> all_chars is_digit s = true -> filter_number (PyStr s) = s.
Proof.
  intros Hne Hd. unfold filter_number, _NUMBER_RE_match. cbn [str].
  rewrite (before_final_newline_id is_digit s eq_refl Hd).
  pose proof (span_all is_digit s "" Hd I) as Hs.
  rewrite append_nil_r in Hs. rewrite Hs.
  destruct s; [contradiction|reflexivity].
Qed.

Lemma filter_number_accepts_digits_witness : filter_number (PyStr "2015") = "2015".
Proof.
  apply (filter_number_accepts_digits "2015"); [discriminate|reflexivity].
Defined.

(** ** [_embed_css_into_html] *)

Lemma strip_prefix_Some (p s rest : string) :
  strip_prefix p s = Some rest -> s = p ++ rest.
Proof.
  revert s. induction p as [|c p IH]; intros s H.
  - simpl in H. now injection H as ->.
  - destruct s as [|d s]; [discriminate H|]. simpl in H.
    destruct (Ascii.eqb_spec c d) as [->|_]; [|discriminate H].
    simpl. now rewrite (IH s H).
Qed.

(** The shapes of the result, by what the text starts with. *)
Lemma embed_cases (s : string) :
  (exists r, s = "</" ++ r
             /\ _embed_css_into_html s
                = String "<" (String BACKSLASH (String "/" (_embed_css_into_html r))))
  \/ (exists r, s = "]]>" ++ r
                /\ _embed_css_into_html s
                   = String "]" (String "]" (String BACKSLASH
                       (String ">" (_embed_css_into_html r)))))
  \/ (s = "" /\ _embed_css_into_html s = "")
  \/ (exists c r, s = String c r
                  /\ strip_prefix "</" s = None
                  /\ strip_prefix "]]>" s = None
                  /\ _embed_css_into_html s
                     = String c (_embed_css_into_html r)).
Proof.
  destruct s as [|c s]; [right; right; left; now split|].
  unfold _embed_css_into_html. cbn [re_sub].
  destruct (_HTML_RAW_CONTENT_HAZARD_RE_match (String c s)) as [[g len]|] eqn:E;
    unfold _HTML_RAW_CONTENT_HAZARD_RE_match in E.
  - destruct (strip_prefix "</" (String c s)) as [r|] eqn:E1.
    + left. exists r. apply strip_prefix_Some in E1. split; [exact E1|].
      injection E as <- <-. injection E1 as -> ->.
      change (_defang_raw_content_hazard tt "</")
        with (String "<" (String BACKSLASH "/"), tt).
      cbn [pred re_sub].
      destruct (re_sub _ _ 0 tt r) as [out st]. reflexivity.
    + destruct (strip_prefix "]]>" (String c s)) as [r|] eqn:E2;
        [|discriminate E].
      right; left. exists r. apply strip_prefix_Some in E2.
      split; [exact E2|]. injection E as <- <-. injection E2 as -> ->.
      change (_defang_raw_content_hazard tt "]]>")
        with (String "]" (String "]" (String BACKSLASH ">")), tt).
      cbn [pred re_sub].
      destruct (re_sub _ _ 0 tt r) as [out st]. reflexivity.
  - right; right; right. exists c, s.
    destruct (strip_prefix "</" (String c s)); [discriminate E|].
    destruct (strip_prefix "]]>" (String c s)); [discriminate E|].
    repeat split.
    destruct (re_sub _ _ 0 tt s) as [out st]. reflexivity.
Qed.

Lemma embed_head (ch : ascii) (s : string) :
  Ascii.eqb ch "<" = false -> Ascii.eqb ch "]" = false ->
  starts_with_char ch (_embed_css_into_html s) = starts_with_char ch s.
Proof.
  intros H1 H2.
  destruct (embed_cases s)
    as [[r [-> ->]]|[[r [-> ->]]|[[-> ->]|[c [r [-> [_ [_ ->]]]]]]]];
    simpl; try reflexivity; assumption.
Qed.

Lemma embed_no_hazard (n : nat) :
  forall s, String.length s <= n ->
    contains "</" (_embed_css_into_html s) = false
    /\ contains "]]>" (_embed_css_into_html s) = false.
Proof.
  induction n as [|n IH]; intros s Hl.
  - destruct s; [split; reflexivity|simpl in Hl; lia].
  - destruct (embed_cases s)
      as [[r [-> ->]]|[[r [-> ->]]|[[-> ->]|[c [r [-> [E1 [E2 ->]]]]]]]].
    + destruct (IH r) as [H1 H2]; [simpl in Hl; lia|].
      split; [exact H1|exact H2].
    + destruct (IH r) as [H1 H2]; [simpl in Hl; lia|].
      split; [exact H1|exact H2].
    + split; reflexivity.
    + destruct (IH r) as [H1 H2]; [simpl in Hl; lia|]. split.
      * rewrite contains_cons, H1. cbn [strip_prefix].
        destruct (Ascii.eqb "<" c) eqn:Ec; [|reflexivity].
        pose proof (embed_head "/" r eq_refl eq_refl) as Hh.
        destruct (_embed_css_into_html r) as [|d out]; [reflexivity|].
        cbn [starts_with_char] in Hh. rewrite Hh.
        destruct r as [|d' r']; cbn [starts_with_char]; [reflexivity|].
        cbn [strip_prefix] in E1. rewrite Ec in E1.
        destruct (Ascii.eqb "/" d'); [discriminate E1|reflexivity].
      * rewrite contains_cons, H2. cbn [strip_prefix].
        destruct (Ascii.eqb "]" c) eqn:Ec; [|reflexivity].
        destruct (embed_cases r)
          as [[r1 [-> ->]]|[[r1 [-> ->]]|[[-> ->]|[c1 [r1 [-> [_ [_ ->]]]]]]]];
          try reflexivity.
        destruct (Ascii.eqb "]" c1) eqn:Ec1; [|reflexivity].
        pose proof (embed_head ">" r1 eq_refl eq_refl) as Hh.
        destruct (_embed_css_into_html r1) as [|d out]; [reflexivity|].
        cbn [starts_with_char] in Hh. rewrite Hh.
        destruct r1 as [|d' r1']; cbn [starts_with_char]; [reflexivity|].
        cbn [strip_prefix] in E2. rewrite Ec, Ec1 in E2.
        destruct (Ascii.eqb ">" d'); [discriminate E2|reflexivity].
Qed.

(** X14: the result of [_embed_css_into_html] holds neither [</] nor the three
    characters that end a CDATA section, whatever the text; so does the result of
    [filter_css_value] on a value of kind CSS. *)
Theorem embed_css_no_hazard (filter_css_value_helper : pyvalue -> string)
    (css : string) (value : pyvalue) :
  (contains "</" (_embed_css_into_html css) = false
   /\ contains "]]>" (_embed_css_into_html css) = false)
  /\ (is_content_kind value CSS = true ->
      contains "</" (filter_css_value filter_css_value_helper value) = false
      /\ contains "]]>" (filter_css_value filter_css_value_helper value)
         = false).
Proof.
  split; [apply (embed_no_hazard (String.length css)); lia|].
  intros Hk. unfold filter_css_value, _get_content_of_kind. rewrite Hk.
  destruct value as [|s|v|s]; try discriminate Hk.
  apply (embed_no_hazard (String.length (content v))); lia.
Qed.

Lemma embed_css_no_hazard_witness :
  contains "</"
    (filter_css_value (fun _ => "")
       (PySanitized {| cls := SanitizedCss;
                       content := "a{}</style><script>";
                       content_dir := Some LTR |})) = false.
Proof.
  apply (proj2 (embed_css_no_hazard (fun _ => "") ""
                  (PySanitized {| cls := SanitizedCss;
                                  content := "a{}</style><script>";
                                  content_dir := Some LTR |}))).
  reflexivity.
Defined.

(** ** More on the loop of [html_to_text] *)

Lemma void_tag_matches (name : string) :
  In name HTML5_VOID_ELEMENTS ->
  name <> "" /\ _HTML5_VOID_ELEMENTS_RE_match ("<" ++ name ++ ">") = true.
Proof.
  intros Hin. unfold HTML5_VOID_ELEMENTS in Hin. simpl in Hin.
  repeat (destruct Hin as [Hin|Hin];
          [subst name; split; [discriminate|reflexivity]|]).
  contradiction.
Qed.

(** X15: outside a raw-text region, the opening tag of a void element, in
    any case, leaves the whitespace stack as it is. *)
Theorem void_tag_keeps_stack (charref_sub : string -> string) (st : state)
    (gap name g : string) (attrs : option string) :
  removing_until st = "" ->
  In name HTML5_VOID_ELEMENTS ->
  lower g = name ->
  preserve_whitespace_stack
    (html_to_text_step charref_sub st
       (gap, {| tag_group := Some g; attrs_group := attrs |}))
  = preserve_whitespace_stack st.
Proof.
  intros Hr Hin Hg. destruct (void_tag_matches name Hin) as [Hne Hv].
  destruct g as [|c g']; [now exfalso; apply Hne|].
  unfold html_to_text_step. rewrite Hr. cbn [tag_group attrs_group].
  rewrite Hg. destruct name as [|c1 t1]; [now exfalso|].
  destruct (tag_text _ _) as [t2 r]. cbn [preserve_whitespace_stack].
  now rewrite Hv.
Qed.

Lemma void_tag_keeps_stack_witness :
  preserve_whitespace_stack
    (html_to_text_step (fun s => s)
       {| text := "a"; removing_until := "";
          preserve_whitespace_stack := [("pre", true)] |}
       ("b", {| tag_group := Some "IMG"; attrs_group := Some " src='x'" |}))
  = [("pre", true)].
Proof.
  apply (void_tag_keeps_stack (fun s => s)
           {| text := "a"; removing_until := "";
              preserve_whitespace_stack := [("pre", true)] |}
           "b" "img" "IMG" (Some " src='x'")).
  - reflexivity.
  - unfold HTML5_VOID_ELEMENTS. simpl. tauto.
  - reflexivity.
Defined.

Lemma pop_until_match (tag : string) (above below : list frame) (b : bool) :
  (forall f, In f above -> fst f <> tag) ->
  pop_until tag (above ++ (tag, b) :: below) = below.
Proof.
  induction above as [|[name b0] above IH]; intros H.
  - simpl. now rewrite String.eqb_refl.
  - simpl. destruct (String.eqb_spec name tag) as [E|_].
    + exfalso. apply (H (name, b0)); [now left|exact E].
    + apply IH. intros f Hf. apply H. now right.
Qed.

(** X16: outside a raw-text region, a closing tag pops the nearest frame of
    its name together with every frame above it, the elements left open
    inside; the frames below stay. *)
Theorem closing_tag_pops_through (charref_sub : string -> string)
    (st : state) (gap name : string) (attrs : option string)
    (above below : list frame) (preserve : bool) :
  removing_until st = "" ->
  preserve_whitespace_stack st
  = (above ++ (lower name, preserve) :: below)%list ->
  (forall f, In f above -> fst f <> lower name) ->
  preserve_whitespace_stack
    (html_to_text_step charref_sub st
       (gap, {| tag_group := Some ("/" ++ name); attrs_group := attrs |}))
  = below.
Proof.
  intros Hr Hs Hno. unfold html_to_text_step. rewrite Hr.
  cbn [tag_group attrs_group append].
  change (lower (String "/" name)) with (String "/" (lower name)).
  cbv iota. destruct (tag_text _ _) as [t2 r].
  cbn [preserve_whitespace_stack].
  change (_HTML5_VOID_ELEMENTS_RE_match
            (String "<" (String "/" (lower name ++ ">")))) with false.
  cbv iota. unfold update_preserve_whitespace_stack. rewrite Hs.
  now apply pop_until_match.
Qed.

Lemma closing_tag_pops_through_witness :
  preserve_whitespace_stack
    (html_to_text_step (fun s => s)
       {| text := ""; removing_until := "";
          preserve_whitespace_stack :=
            [("b", true); ("pre", true); ("div", false)] |}
       ("", {| tag_group := Some "/PRE"; attrs_group := Some "" |}))
  = [("div", false)].
Proof.
  apply (closing_tag_pops_through (fun s => s)
           {| text := ""; removing_until := "";
              preserve_whitespace_stack :=
                [("b", true); ("pre", true); ("div", false)] |}
           "" "PRE" (Some "") [("b", true)] [("div", false)] true).
  - reflexivity.
  - reflexivity.
  - simpl. intros f [E|[]]. subst f. discriminate.
Defined.

(** ** Whitespace *)

Lemma html_space_not_space (c : ascii) :
  is_html_space c = false -> Ascii.eqb c " " = false.
Proof. unfold is_html_space. now destruct (Ascii.eqb c " "). Qed.

Lemma space_is_html_space (c : ascii) :
  Ascii.eqb c " " = true -> is_html_space c = true.
Proof. unfold is_html_space. now intros ->. Qed.

(** X17: [_HTML_WHITESPACE_RE.sub(' ', chunk)] leaves no tab, carriage
    return or line feed and no two spaces in a row, and a text that is
    already so is left as it is. *)
Theorem collapse_whitespace_collapsed (chunk : string) :
  collapsed false (collapse_whitespace false chunk) = true
  /\ (collapsed false chunk = true ->
      collapse_whitespace false chunk = chunk).
Proof.
  split.
  - assert (H : forall b, collapsed b (collapse_whitespace b chunk) = true).
    { induction chunk as [|c s IH]; intros b; [reflexivity|].
      cbn [collapse_whitespace]. destruct (is_html_space c) eqn:Hc.
      - destruct b; [apply IH|]. cbn [collapsed Ascii.eqb Bool.eqb negb andb].
        apply IH.
      - cbn [collapsed]. rewrite (html_space_not_space c Hc), Hc.
        cbn [negb andb]. apply IH. }
    apply H.
  - assert (H : forall b, collapsed b chunk = true ->
                          collapse_whitespace b chunk = chunk).
    { induction chunk as [|c s IH]; intros b; [reflexivity|].
      cbn [collapsed collapse_whitespace].
      destruct (Ascii.eqb c " ") eqn:Hs.
      - rewrite (space_is_html_space c Hs). apply Ascii.eqb_eq in Hs. subst c.
        rewrite andb_true_iff. intros [Hb H]. apply negb_true_iff in Hb.
        subst b. now rewrite (IH true H).
      - rewrite andb_true_iff. intros [Hc H]. apply negb_true_iff in Hc.
        rewrite Hc. now rewrite (IH false H). }
    apply H.
Qed.

Lemma collapse_whitespace_collapsed_witness :
  collapse_whitespace false "a b c" = "a b c".
Proof.
  apply (proj2 (collapse_whitespace_collapsed "a b c")). reflexivity.
Defined.

(** ** Texts without tags *)

Lemma TAG_RE_needs_lt (c : ascii) (s : string) :
  no_lt c = true -> _TAG_RE_match (String c s) = None.
Proof. unfold no_lt. by_cases_on c. Qed.

Lemma finditer_gap (gap rest : string) :
  all_chars no_lt gap = true ->
  _TAG_RE_finditer 0 (gap ++ rest) = with_gap gap (_TAG_RE_finditer 0 rest).
Proof.
  induction gap as [|c gap IH]; cbn [all_chars append].
  - intros _. destruct (_TAG_RE_finditer 0 rest) as [|[g m] l] eqn:E;
      [|reflexivity].
    destruct rest as [|c r]; [discriminate E|]. cbn [_TAG_RE_finditer] in E.
    destruct (_TAG_RE_match (String c r)) as [[m len]|]; [discriminate E|].
    reflexivity.
  - rewrite andb_true_iff. intros [Hc Hg]. cbn [_TAG_RE_finditer].
    rewrite (TAG_RE_needs_lt c _ Hc), (IH Hg).
    destruct (_TAG_RE_finditer 0 rest) as [|[g m] l]; reflexivity.
Qed.

Lemma finditer_no_tag (s : string) :
  all_chars no_lt s = true -> _TAG_RE_finditer 0 s = [(s, no_match)].
Proof.
  intros H. rewrite <- (append_nil_r s) at 1.
  rewrite (finditer_gap s "" H). cbn [_TAG_RE_finditer with_gap].
  now rewrite append_nil_r.
Qed.

(** X18: on trusted HTML without any [<], [html_to_text] decodes the
    entities, replaces each run of whitespace by one space, drops a leading
    space and turns the non-breaking spaces into spaces. *)
Theorem html_to_text_no_tag (charref_sub : string -> string)
    (html : string) (dir : option DIR) :
  all_chars no_lt html = true ->
  html_to_text charref_sub
    (PySanitized {| cls := SanitizedHtml; content := html;
                    content_dir := dir |})
  = replace_nbsp
      (strip_leading_space
         (collapse_whitespace false (unescape charref_sub html))).
Proof.
  intros H. unfold html_to_text. cbn [isinstance_SanitizedHtml cls negb str content].
  rewrite (finditer_no_tag html H). reflexivity.
Qed.

Lemma html_to_text_no_tag_witness :
  html_to_text (fun s => s)
    (PySanitized {| cls := SanitizedHtml; content := "  two   words ";
                    content_dir := None |})
  = "two words ".
Proof.
  apply (html_to_text_no_tag (fun s => s) "  two   words " None).
  reflexivity.
Defined.

(** ** Raw text *)

(** X19: the text of a [script], [style], [textarea] or [title] element
    that holds no [<] never reaches the result. *)
Theorem raw_text_body_dropped (charref_sub : string -> string) :
  Forall (raw_text_dropped charref_sub)
    ["script"; "style"; "textarea"; "title"].
Proof.
  repeat constructor; intros body dir H; unfold html_to_text;
    cbn [isinstance_SanitizedHtml cls negb str content append];
    cbn [_TAG_RE_finditer];
    match goal with
    | |- context [_TAG_RE_match ?s] =>
        let r := eval lazy in (_TAG_RE_match s) in
        change (_TAG_RE_match s) with r
    end;
    cbn [pred _TAG_RE_finditer];
    match goal with
    | |- context [_TAG_RE_finditer 0 (body ++ ?rest)] =>
        rewrite (finditer_gap body rest H);
        let r := eval vm_compute in (_TAG_RE_finditer 0 rest) in
        change (_TAG_RE_finditer 0 rest) with r
    end;
    cbn [with_gap fold_left]; reflexivity.
Qed.

Lemma replace_nbsp_none (s : string) :
  all_chars no_nbsp (replace_nbsp s) = true.
Proof.
  induction s as [|c s IH]; [reflexivity|]. cbn [replace_nbsp all_chars].
  rewrite IH, andb_true_r. unfold no_nbsp.
  destruct (Ascii.eqb c NBSP) eqn:E; [reflexivity|now rewrite E].
Qed.

(** X20: the text that [html_to_text] makes of a [SanitizedHtml] holds no
    non-breaking space. *)
Theorem html_to_text_no_nbsp (charref_sub : string -> string)
    (value : pyvalue) :
  isinstance_SanitizedHtml value = true ->
  all_chars no_nbsp (html_to_text charref_sub value) = true.
Proof.
  intros H. unfold html_to_text.
  destruct value as [|s|v|s]; try discriminate H.
  rewrite H. cbn [negb]. apply replace_nbsp_none.
Qed.

Lemma html_to_text_no_nbsp_witness :
  all_chars no_nbsp
    (html_to_text (fun s => s)
       (PySanitized {| cls := SanitizedHtml;
                       content := String NBSP "<p>a" ++ String NBSP "b</p>";
                       content_dir := None |})) = true.
Proof.
  apply (html_to_text_no_nbsp (fun s => s)). reflexivity.
Defined.

(** * Raw-text elements in [html_to_text] *)

(** ** The region, match by match *)




(** *** What follows the region is read as if the element were not there *)










(** ** The rule of the specification *)



